(** * Length feedback of the structure strip exercise

    A shallow embedding of the length-feedback algorithm of the
    H5P structure strip content type:

    - [Util.greatestCommonDivisor], [Util.greatestCommonDivisorArray]
      (second document of src/scripts/h5p-structure-strip-content.js);
    - [StructureStripContent]: constructor, [buildFeedbackTexts],
      [updateSegments], [checkAnswer] of
      src/scripts/h5p-structure-strip-content.js (gaps rounded with
      Math.floor / Math.ceil, no absolute length bounds);
    - [StructureStripContentMinMax]: the same class in its other
      revision (unnamed/part_000: textLengthMin / textLengthMax clamping,
      gaps rounded with Math.round).

    Numbers.  JavaScript numbers are IEEE-754 doubles.  They are modelled
    by [JS.number]: an exact rational, or one of Infinity, -Infinity, NaN.
    Finite arithmetic is exact (no rounding to 53 bits, no overflow, no
    negative zero); the special values follow IEEE-754, so that a division
    by zero or an undefined parameter behaves as in the source.  Weights
    are integers ([Z]), text lengths are natural numbers. *)

From Stdlib Require Import ZArith QArith Qround Qminmax Lqa Lia.
From Stdlib Require Import List String Ascii Bool DecimalString.
From Equations Require Import Equations.
Import ListNotations.

(* ===================================================================== *)
(** ** JavaScript values used by the algorithm *)
(* ===================================================================== *)

Module JS.

(** A JavaScript number. *)
Inductive number : Type :=
| Fin (q : Q)
| PInf
| NInf
| NaN.

(** The value of an integer-valued result such as the one of Math.floor. *)
Definition ofZ (z : Z) : number := Fin (inject_Z z).
Definition ofNat (n : nat) : number := ofZ (Z.of_nat n).

Definition Qltb (a b : Q) : bool := negb (Qle_bool b a).
Definition Qis0 (a : Q) : bool := Qeq_bool a 0.

(** Infinity with the sign of a rational; NaN for zero (0 * Infinity). *)
Definition infOf (c : comparison) : number :=
  match c with
  | Gt => PInf
  | Lt => NInf
  | Eq => NaN
  end.

Definition neg (x : number) : number :=
  match x with
  | Fin a => Fin (- a)
  | PInf => NInf
  | NInf => PInf
  | NaN => NaN
  end.

Definition add (x y : number) : number :=
  match x, y with
  | NaN, _ | _, NaN => NaN
  | Fin a, Fin b => Fin (a + b)
  | PInf, NInf | NInf, PInf => NaN
  | PInf, _ | _, PInf => PInf
  | NInf, _ | _, NInf => NInf
  end.

Definition sub (x y : number) : number := add x (neg y).

Definition mul (x y : number) : number :=
  match x, y with
  | NaN, _ | _, NaN => NaN
  | Fin a, Fin b => Fin (a * b)
  | Fin a, PInf | PInf, Fin a => infOf (a ?= 0)
  | Fin a, NInf | NInf, Fin a => infOf (CompOpp (a ?= 0))
  | PInf, PInf | NInf, NInf => PInf
  | PInf, NInf | NInf, PInf => NInf
  end.

Definition div (x y : number) : number :=
  match x, y with
  | NaN, _ | _, NaN => NaN
  | Fin a, Fin b => if Qis0 b then infOf (a ?= 0) else Fin (a / b)
  | Fin _, _ => Fin 0
  | PInf, Fin b => if Qltb b 0 then NInf else PInf
  | NInf, Fin b => if Qltb b 0 then PInf else NInf
  | _, _ => NaN
  end.

(** [x < y]; false as soon as one side is NaN. *)
Definition ltb (x y : number) : bool :=
  match x, y with
  | NaN, _ | _, NaN => false
  | Fin a, Fin b => Qltb a b
  | _, NInf => false
  | NInf, _ => true
  | PInf, _ => false
  | Fin _, PInf => true
  end.

(** [x > y]. *)
Definition gtb (x y : number) : bool := ltb y x.

(** Math.max of two arguments. *)
Definition max (x y : number) : number :=
  match x, y with
  | NaN, _ | _, NaN => NaN
  | _, _ => if ltb x y then y else x
  end.

(** Math.floor, Math.ceil and Math.round.  Math.round rounds to the
    nearest integer, a tie towards +Infinity: floor (x + 1/2). *)
Definition onFin (f : Q -> Z) (x : number) : number :=
  match x with
  | Fin a => ofZ (f a)
  | _ => x
  end.

Definition floor : number -> number := onFin Qfloor.
Definition ceil : number -> number := onFin Qceiling.
Definition round : number -> number := onFin (fun a => Qfloor (a + (1 # 2))).

(** [x === 0]. *)
Definition isZero (x : number) : bool :=
  match x with
  | Fin a => Qis0 a
  | _ => false
  end.

(** Number to string, as done by String.prototype.replace on a
    replacement that is a number.  Integer values print in decimal
    (exact below 10^21, where JavaScript switches to exponents); a
    fraction never reaches this function in the algorithm, the result of
    a rounding being printed, and prints here as numerator/denominator. *)
Definition ZtoString (z : Z) : string := NilZero.string_of_int (Z.to_int z).

Definition toString (x : number) : string :=
  match x with
  | Fin a =>
      let r := Qred a in
      match Qden r with
      | xH => ZtoString (Qnum r)
      | d => ZtoString (Qnum r) ++ "/" ++ ZtoString (Zpos d)
      end
  | PInf => "Infinity"
  | NInf => "-Infinity"
  | NaN => "NaN"
  end.

(** null, undefined, or a string: what a feedback entry can be. *)
Inductive value : Type :=
| Undefined
| Null
| Str (s : string).

(** [v || d] for a default string [d]: the empty string is falsy. *)
Definition orElse (v : value) (d : string) : string :=
  match v with
  | Str EmptyString | Undefined | Null => d
  | Str s => s
  end.

(** *** String.prototype.replace with a global literal pattern *)

(** Expansion of the replacement text at one match (GetSubstitution,
    without capture groups): $$ is a dollar, $& the match, $` the text
    before it, $' the text after it; everything else is literal. *)
Fixpoint getSubstitution (replacement before matched after : string) : string :=
  match replacement with
  | EmptyString => EmptyString
  | String c r =>
      if Ascii.eqb c "$" then
        match r with
        | String d r' =>
            if Ascii.eqb d "$" then String "$" (getSubstitution r' before matched after)
            else if Ascii.eqb d "&" then matched ++ getSubstitution r' before matched after
            else if Ascii.eqb d "`" then before ++ getSubstitution r' before matched after
            else if Ascii.eqb d "'" then after ++ getSubstitution r' before matched after
            else String c (getSubstitution r before matched after)
        | EmptyString => String c EmptyString
        end
      else String c (getSubstitution r before matched after)
  end.

Fixpoint dropString (n : nat) (s : string) : string :=
  match n, s with
  | S k, String _ s' => dropString k s'
  | _, _ => s
  end.

(** [replaceFrom pat rep before s skip]: the text [before] has been
    read, [s] remains, and the next [skip] characters belong to a match
    already replaced. *)
Fixpoint replaceFrom (pat rep before s : string) (skip : nat) : string :=
  match s with
  | EmptyString => EmptyString
  | String c s' =>
      let before' := (before ++ String c EmptyString)%string in
      match skip with
      | S k => replaceFrom pat rep before' s' k
      | O =>
          if String.prefix pat s then
            (getSubstitution rep before pat (dropString (String.length pat) s)
               ++ replaceFrom pat rep before' s' (String.length pat - 1))%string
          else String c (replaceFrom pat rep before' s' 0)
      end
  end.

(** [s.replace(/pat/g, rep)] for a non-empty literal [pat]. *)
Definition replaceAll (pat rep s : string) : string :=
  replaceFrom pat rep EmptyString s 0.

(** Array.prototype.reduce without an initial value: a TypeError
    ([None]) on the empty array; the callback is not called on a
    one-element array. *)
Definition reduce {A : Type} (f : A -> A -> A) (l : list A) : option A :=
  match l with
  | [] => None
  | x :: xs => Some (fold_left f xs x)
  end.

End JS.

Close Scope Q_scope.

(* ===================================================================== *)
(** ** Util *)
(* ===================================================================== *)

Module Util.

(** [greatestCommonDivisor(a = 1, b = 1)]:
    [return (!b) ? a : Util.greatestCommonDivisor(b, a % b);]
    The remainder of JavaScript takes the sign of the dividend
    ([Z.rem]). *)
Equations? greatestCommonDivisor (a b : Z) : Z by wf (Z.abs_nat b) lt :=
  greatestCommonDivisor a b with Z.eq_dec b 0 := {
    | left _ => a
    | right _ => greatestCommonDivisor b (Z.rem a b)
  }.
Proof.
  pose proof (Z.rem_bound_abs a b n). lia.
Qed.

(** The callback of the reduction: [if (!previous) return 1;] then the
    gcd of the accumulator and the current number. *)
Definition gcdStep (previous current : Z) : Z :=
  if Z.eqb previous 0 then 1%Z else greatestCommonDivisor previous current.

(** [greatestCommonDivisorArray(numbers)]: reduce without initial
    value. *)
Definition greatestCommonDivisorArray (numbers : list Z) : option Z :=
  JS.reduce gcdStep numbers.

End Util.

(* ===================================================================== *)
(** ** Segments *)
(* ===================================================================== *)

(** What the content reads from a segment object: [getTitle()],
    [getWeight()] and [getText()].  The text is the only part that
    changes after construction; its length counts one unit per
    character of the string. *)
Record Segment : Type := {
  title : string;
  weight : Z;
  text : string
}.

Definition getTitle (s : Segment) : string := title s.
Definition getWeight (s : Segment) : Z := weight s.
Definition getText (s : Segment) : string := text s.

(** The parameter defaults of a segment: empty title and text, weight 1. *)
Definition defaultSegment : Segment := {| title := ""; weight := 1; text := "" |}.

(** Segment objects are shared by reference between [this.segments] and
    [this.mostImportantSegment]; a reference is the index in
    [this.segments]. *)
Definition segmentAt (segments : list Segment) (ref : nat) : Segment :=
  nth ref segments defaultSegment.

(** The learner typing in segment [ref]: its text becomes [t]. *)
Fixpoint typeText (segments : list Segment) (ref : nat) (t : string) : list Segment :=
  match segments, ref with
  | [], _ => []
  | s :: rest, O => {| title := title s; weight := weight s; text := t |} :: rest
  | s :: rest, S k => s :: typeText rest k t
  end.

(** [this.segments.reduce((previous, current) => ...)] over the segment
    references: the callback keeps [previous] unless [current] weighs
    strictly more.  Its guard [if (!previous)] never fires, an object
    being truthy. *)
Definition weightAt (segments : list Segment) (ref : nat) : Z :=
  getWeight (segmentAt segments ref).

Definition heavier (segments : list Segment) (previous current : nat) : nat :=
  if Z.ltb (weightAt segments previous) (weightAt segments current)
  then current else previous.

Definition mostImportant (segments : list Segment) : option nat :=
  JS.reduce (heavier segments) (seq 0 (List.length segments)).

(** [ref] is the first segment of greatest weight. *)
Definition firstHeaviest (segments : list Segment) (ref : nat) : Prop :=
  ref < List.length segments /\
  (forall j, j < List.length segments ->
     (weightAt segments j <= weightAt segments ref)%Z) /\
  (forall j, j < ref -> (weightAt segments j < weightAt segments ref)%Z).

(** The invariant of a segment set: every weight is positive. *)
Definition positiveWeights (segments : list Segment) : Prop :=
  Forall (fun s => (0 < getWeight s)%Z) segments.

Definition textLength (s : Segment) : nat := String.length (getText s).

Inductive FeedbackMode : Type := continuously | onRequest | whileTyping | noFeedback.

Definition isContinuously (m : FeedbackMode) : bool :=
  match m with continuously => true | _ => false end.
Definition isOnRequest (m : FeedbackMode) : bool :=
  match m with onRequest => true | _ => false end.

Record L10n : Type := {
  l10n_tooLong : string;
  l10n_tooShort : string;
  l10n_segmentTooLong : string;
  l10n_segmentTooShort : string;
  l10n_allSegmentsGood : string
}.

Record TextTemplates : Type := {
  tpl_alright : JS.value;
  tpl_tooLong : string;
  tpl_tooShort : string
}.

(** [template.replace(/@title/g, title).replace(/@chars/g, gap)] *)
Definition fillTemplate (template : string) (segment : Segment) (gap : JS.number) : string :=
  JS.replaceAll "@chars" (JS.toString gap)
    (JS.replaceAll "@title" (getTitle segment) template).

(** The body of the loop of [buildFeedbackTexts], the value pushed for
    one segment.  The two revisions differ in the rounding only:
    Math.floor / Math.ceil in one, Math.round twice in the other. *)
Section SegmentFeedback.

Variables roundTooLong roundTooShort : JS.number -> JS.number.

Definition normalizedLength (segment : Segment) : JS.number :=
  JS.div (JS.ofNat (String.length (getText segment))) (JS.ofZ (getWeight segment)).

Definition segmentFeedback (textTemplates : TextTemplates)
    (normalizedLengthMax normalizedLengthMin : JS.number)
    (segment : Segment) : JS.value :=
  if JS.gtb (normalizedLength segment) normalizedLengthMax then
    let gap :=
      roundTooLong
        (JS.mul (JS.sub (normalizedLength segment) normalizedLengthMax)
                (JS.ofZ (getWeight segment))) in
    if JS.isZero gap then JS.Null
    else JS.Str (fillTemplate (tpl_tooLong textTemplates) segment gap)
  else if JS.ltb (normalizedLength segment) normalizedLengthMin then
    let gap :=
      roundTooShort
        (JS.mul (JS.sub normalizedLengthMin (normalizedLength segment))
                (JS.ofZ (getWeight segment))) in
    JS.Str (fillTemplate (tpl_tooShort textTemplates) segment gap)
  else tpl_alright textTemplates.

(** The branch taken for a segment, with the gap computed in it. *)
Inductive Finding : Type :=
| TooLong (gap : JS.number)
| TooShort (gap : JS.number)
| Alright.

Definition finding (normalizedLengthMax normalizedLengthMin : JS.number)
    (segment : Segment) : Finding :=
  if JS.gtb (normalizedLength segment) normalizedLengthMax then
    TooLong
      (roundTooLong
         (JS.mul (JS.sub (normalizedLength segment) normalizedLengthMax)
                 (JS.ofZ (getWeight segment))))
  else if JS.ltb (normalizedLength segment) normalizedLengthMin then
    TooShort
      (roundTooShort
         (JS.mul (JS.sub normalizedLengthMin (normalizedLength segment))
                 (JS.ofZ (getWeight segment))))
  else Alright.

(** What is pushed for a finding. *)
Definition pushed (textTemplates : TextTemplates) (segment : Segment)
    (f : Finding) : JS.value :=
  match f with
  | TooLong gap =>
      if JS.isZero gap then JS.Null
      else JS.Str (fillTemplate (tpl_tooLong textTemplates) segment gap)
  | TooShort gap => JS.Str (fillTemplate (tpl_tooShort textTemplates) segment gap)
  | Alright => tpl_alright textTemplates
  end.

End SegmentFeedback.

(** The three classes of a segment, in the order short, alright, long. *)
Inductive Verdict : Type := tooShort | alright | tooLong.

Definition verdictOf (f : Finding) : Verdict :=
  match f with
  | TooLong _ => tooLong
  | TooShort _ => tooShort
  | Alright => alright
  end.

Definition rank (v : Verdict) : nat :=
  match v with
  | tooShort => 0
  | alright => 1
  | tooLong => 2
  end.

(** A number that a configuration can hold: finite, or not set. *)
Definition finiteOrUnset (x : JS.number) : Prop :=
  match x with
  | JS.Fin _ | JS.NaN => True
  | _ => False
  end.

(** The band [min, max] around the normalized reference length. *)
Definition bandMax (normalizedReferenceLength slackPercentage : JS.number) : JS.number :=
  JS.mul normalizedReferenceLength (JS.add (JS.Fin 1) slackPercentage).
Definition bandMin (normalizedReferenceLength slackPercentage : JS.number) : JS.number :=
  JS.mul normalizedReferenceLength (JS.sub (JS.Fin 1) slackPercentage).

(** [Math.max(segment.getText().length, segment.getWeight() / gcd)] *)
Definition unclampedReferenceLength (reference : Segment) (gcd : Z) : JS.number :=
  JS.max (JS.ofNat (String.length (getText reference)))
         (JS.div (JS.ofZ (getWeight reference)) (JS.ofZ gcd)).

(** A template literal applied to a feedback entry. *)
Definition interpolate (v : JS.value) : string :=
  match v with
  | JS.Undefined => "undefined"
  | JS.Null => "null"
  | JS.Str s => s
  end.

Definition isNotNull (v : JS.value) : bool :=
  match v with JS.Null => false | _ => true end.

(** [feedbackTexts.reduce((previous, current) =>
      `${previous}<li>${current}</li>`, '')] *)
Definition listItems (feedbackTexts : list JS.value) : string :=
  fold_left (fun previous current => (previous ++ "<li>" ++ interpolate current ++ "</li>")%string)
            feedbackTexts EmptyString.

(** What [getText(concatenated = false)] returns: the array of the
    texts, or one string. *)
Inductive Texts : Type :=
| TextArray (texts : list string)
| TextJoined (joined : string).

Definition isNonEmpty (text : string) : bool :=
  match text with
  | EmptyString => false
  | _ => true
  end.

Definition lineFeed : string := String (ascii_of_nat 10) EmptyString.

(** [const texts = this.segments.map(strip => strip.getText());
     return concatenated ?
       texts.filter(text => text !== '').join('\n') : texts;] *)
Definition textsOf (segments : list Segment) (concatenated : bool) : Texts :=
  let texts := map getText segments in
  if concatenated then TextJoined (String.concat lineFeed (filter isNonEmpty texts))
  else TextArray texts.

(** A finding without a message when the template for alright is null
    or undefined: alright, or too long with a gap of 0. *)
Definition silent (f : Finding) : bool :=
  match f with
  | Alright => true
  | TooLong gap => JS.isZero gap
  | TooShort _ => false
  end.

(** The message of a finding that is not silent. *)
Definition messageOf (tooLongTemplate tooShortTemplate : string) (segment : Segment)
    (f : Finding) : string :=
  match f with
  | TooLong gap => fillTemplate tooLongTemplate segment gap
  | TooShort gap => fillTemplate tooShortTemplate segment gap
  | Alright => EmptyString
  end.

(** A report of messages: none, one, or several. *)
Definition report (allSegmentsGood : string) (messages : list string) : string :=
  match messages with
  | [] => "<p>" ++ allSegmentsGood ++ "</p>"
  | [only] => "<p>" ++ only ++ "</p>"
  | _ => "<ul>" ++ String.concat "" (map (fun m => "<li>" ++ m ++ "</li>") messages) ++ "</ul>"
  end%string.

(* ===================================================================== *)
(** ** The content, without absolute length bounds
       (src/scripts/h5p-structure-strip-content.js) *)
(* ===================================================================== *)

Module StructureStripContent.

(** The parameters as the constructor reads them: the segments (title,
    weight, and the text of the previous state or the empty text), the
    slack (10 when none is given), the feedback mode and the texts. *)
Record Params : Type := {
  p_segments : list Segment;
  p_slack : JS.number;
  p_feedbackMode : FeedbackMode;
  p_l10n : L10n
}.

(** The fields of the object; [mostImportantSegment] refers to one of
    [segments]. *)
Record t : Type := {
  params : Params;
  segments : list Segment;
  mostImportantSegment : nat;
  greatestCommonDivisor : Z
}.

(** The constructor; [None] is the TypeError of [reduce] on an empty
    segment array. *)
Definition constructor (p : Params) : option t :=
  match mostImportant (p_segments p) with
  | None => None
  | Some reference =>
      match Util.greatestCommonDivisorArray (map getWeight (p_segments p)) with
      | None => None
      | Some gcd =>
          Some {| params := p;
                  segments := p_segments p;
                  mostImportantSegment := reference;
                  greatestCommonDivisor := gcd |}
      end
  end.

(** Input in one of the text fields. *)
Definition input (c : t) (ref : nat) (txt : string) : t :=
  {| params := params c;
     segments := typeText (segments c) ref txt;
     mostImportantSegment := mostImportantSegment c;
     greatestCommonDivisor := greatestCommonDivisor c |}.

Definition reference (c : t) : Segment := segmentAt (segments c) (mostImportantSegment c).

Definition referenceLength (c : t) : JS.number :=
  unclampedReferenceLength (reference c) (greatestCommonDivisor c).

Definition normalizedReferenceLength (c : t) : JS.number :=
  JS.div (referenceLength c) (JS.ofZ (getWeight (reference c))).

Definition slackPercentage (c : t) : JS.number :=
  JS.div (p_slack (params c)) (JS.Fin 100).

Definition normalizedLengthMax (c : t) : JS.number :=
  bandMax (normalizedReferenceLength c) (slackPercentage c).

Definition normalizedLengthMin (c : t) : JS.number :=
  bandMin (normalizedReferenceLength c) (slackPercentage c).

Definition buildFeedbackTexts (c : t) (textTemplates : TextTemplates) : list JS.value :=
  map (segmentFeedback JS.floor JS.ceil textTemplates
         (normalizedLengthMax c) (normalizedLengthMin c))
      (segments c).

(** The finding for each segment, in segment order. *)
Definition findings (c : t) : list Finding :=
  map (finding JS.floor JS.ceil (normalizedLengthMax c) (normalizedLengthMin c))
      (segments c).

Definition findingAt (c : t) (ref : nat) : Finding :=
  finding JS.floor JS.ceil (normalizedLengthMax c) (normalizedLengthMin c)
          (segmentAt (segments c) ref).

(** [updateSegments]: the status set on each segment; [None] when the
    method returns without doing anything. *)
Definition updateSegments (c : t) : option (list string) :=
  if negb (isContinuously (p_feedbackMode (params c))) then None
  else
    let feedbackTexts :=
      buildFeedbackTexts c
        {| tpl_alright := JS.Undefined;
           tpl_tooLong := l10n_tooLong (p_l10n (params c));
           tpl_tooShort := l10n_tooShort (p_l10n (params c)) |} in
    Some (map (fun text => JS.orElse text "&nbsp;") feedbackTexts).

(** The templates that [checkAnswer] passes to [buildFeedbackTexts]. *)
Definition checkAnswerTemplates (c : t) : TextTemplates :=
  {| tpl_alright := JS.Null;
     tpl_tooLong := l10n_segmentTooLong (p_l10n (params c));
     tpl_tooShort := l10n_segmentTooShort (p_l10n (params c)) |}.

(** [checkAnswer]: the HTML given to the feedback box. *)
Definition checkAnswer (c : t) : option string :=
  if negb (isOnRequest (p_feedbackMode (params c))) then None
  else
    let feedbackTexts := buildFeedbackTexts c (checkAnswerTemplates c) in
    let feedbackTexts := filter isNotNull feedbackTexts in
    Some
      match feedbackTexts with
      | [] => ("<p>" ++ l10n_allSegmentsGood (p_l10n (params c)) ++ "</p>")%string
      | [only] => ("<p>" ++ interpolate only ++ "</p>")%string
      | _ => ("<ul>" ++ listItems feedbackTexts ++ "</ul>")%string
      end.

(** [getText(concatenated = false)] of the content. *)
Definition getTexts (c : t) (concatenated : bool) : Texts :=
  textsOf (segments c) concatenated.

(** What the constructor establishes on positive weights. *)
Record wellFormed (c : t) : Prop := {
  wf_positive : positiveWeights (segments c);
  wf_reference : firstHeaviest (segments c) (mostImportantSegment c);
  wf_gcd_positive : (0 < greatestCommonDivisor c)%Z;
  wf_gcd_divides : Forall (fun s => (greatestCommonDivisor c | getWeight s)%Z) (segments c)
}.

End StructureStripContent.

(* ===================================================================== *)
(** ** The content with absolute length bounds (unnamed/part_000) *)
(* ===================================================================== *)

Module StructureStripContentMinMax.

(** [textLengthMin] and [textLengthMax] are numbers; a parameter that is
    not set is undefined and acts as NaN in the products and
    comparisons it occurs in. *)
Record Params : Type := {
  p_segments : list Segment;
  p_slack : JS.number;
  p_textLengthMin : JS.number;
  p_textLengthMax : JS.number;
  p_feedbackMode : FeedbackMode;
  p_l10n : L10n
}.

Record t : Type := {
  params : Params;
  segments : list Segment;
  mostImportantSegment : nat;
  mostImportantSegmentPercentage : JS.number;
  greatestCommonDivisor : Z
}.

(** [this.segments.reduce((previous, current) =>
      previous + current.getWeight(), 0)] *)
Definition totalWeight (segments : list Segment) : Z :=
  fold_left (fun previous current => (previous + getWeight current)%Z) segments 0%Z.

(** The constructor: it replaces [textLengthMax] by Infinity when the
    share of the reference segment in it is below [textLengthMin]. *)
Definition constructor (p : Params) : option t :=
  match mostImportant (p_segments p) with
  | None => None
  | Some reference =>
      let percentage :=
        JS.div (JS.ofZ (getWeight (segmentAt (p_segments p) reference)))
               (JS.ofZ (totalWeight (p_segments p))) in
      let textLengthMax :=
        if JS.ltb (JS.mul (p_textLengthMax p) percentage) (p_textLengthMin p)
        then JS.PInf else p_textLengthMax p in
      match Util.greatestCommonDivisorArray (map getWeight (p_segments p)) with
      | None => None
      | Some gcd =>
          Some {| params :=
                    {| p_segments := p_segments p;
                       p_slack := p_slack p;
                       p_textLengthMin := p_textLengthMin p;
                       p_textLengthMax := textLengthMax;
                       p_feedbackMode := p_feedbackMode p;
                       p_l10n := p_l10n p |};
                  segments := p_segments p;
                  mostImportantSegment := reference;
                  mostImportantSegmentPercentage := percentage;
                  greatestCommonDivisor := gcd |}
      end
  end.

Definition input (c : t) (ref : nat) (txt : string) : t :=
  {| params := params c;
     segments := typeText (segments c) ref txt;
     mostImportantSegment := mostImportantSegment c;
     mostImportantSegmentPercentage := mostImportantSegmentPercentage c;
     greatestCommonDivisor := greatestCommonDivisor c |}.

Definition reference (c : t) : Segment := segmentAt (segments c) (mostImportantSegment c).

(** [textLengthMin * mostImportantSegmentPercentage] and the same for
    the maximum. *)
Definition lowerBound (c : t) : JS.number :=
  JS.mul (p_textLengthMin (params c)) (mostImportantSegmentPercentage c).
Definition upperBound (c : t) : JS.number :=
  JS.mul (p_textLengthMax (params c)) (mostImportantSegmentPercentage c).

(** The two [if] statements on [referenceLength] and [slackPercentage],
    one after the other. *)
Definition clampBelow (c : t) (rs : JS.number * JS.number) : JS.number * JS.number :=
  if JS.ltb (fst rs) (lowerBound c) then (lowerBound c, JS.Fin 0) else rs.
Definition clampAbove (c : t) (rs : JS.number * JS.number) : JS.number * JS.number :=
  if JS.gtb (fst rs) (upperBound c) then (upperBound c, JS.Fin 0) else rs.

Definition initialReferenceLength (c : t) : JS.number :=
  unclampedReferenceLength (reference c) (greatestCommonDivisor c).

Definition referenceLengthAndSlack (c : t) : JS.number * JS.number :=
  clampAbove c
    (clampBelow c (initialReferenceLength c, JS.div (p_slack (params c)) (JS.Fin 100))).

Definition referenceLength (c : t) : JS.number := fst (referenceLengthAndSlack c).
Definition slackPercentage (c : t) : JS.number := snd (referenceLengthAndSlack c).

Definition normalizedReferenceLength (c : t) : JS.number :=
  JS.div (referenceLength c) (JS.ofZ (getWeight (reference c))).

Definition normalizedLengthMax (c : t) : JS.number :=
  bandMax (normalizedReferenceLength c) (slackPercentage c).

Definition normalizedLengthMin (c : t) : JS.number :=
  bandMin (normalizedReferenceLength c) (slackPercentage c).

Definition buildFeedbackTexts (c : t) (textTemplates : TextTemplates) : list JS.value :=
  map (segmentFeedback JS.round JS.round textTemplates
         (normalizedLengthMax c) (normalizedLengthMin c))
      (segments c).

Definition findings (c : t) : list Finding :=
  map (finding JS.round JS.round (normalizedLengthMax c) (normalizedLengthMin c))
      (segments c).

Definition findingAt (c : t) (ref : nat) : Finding :=
  finding JS.round JS.round (normalizedLengthMax c) (normalizedLengthMin c)
          (segmentAt (segments c) ref).

Definition updateSegments (c : t) : option (list string) :=
  if negb (isContinuously (p_feedbackMode (params c))) then None
  else
    let feedbackTexts :=
      buildFeedbackTexts c
        {| tpl_alright := JS.Undefined;
           tpl_tooLong := l10n_tooLong (p_l10n (params c));
           tpl_tooShort := l10n_tooShort (p_l10n (params c)) |} in
    Some (map (fun text => JS.orElse text "&nbsp;") feedbackTexts).

Definition checkAnswerTemplates (c : t) : TextTemplates :=
  {| tpl_alright := JS.Null;
     tpl_tooLong := l10n_segmentTooLong (p_l10n (params c));
     tpl_tooShort := l10n_segmentTooShort (p_l10n (params c)) |}.

(** [checkAnswer]: the HTML it returns. *)
Definition checkAnswer (c : t) : option string :=
  if negb (isOnRequest (p_feedbackMode (params c))) then None
  else
    let feedbackTexts := buildFeedbackTexts c (checkAnswerTemplates c) in
    let feedbackTexts := filter isNotNull feedbackTexts in
    let feedbackTexts :=
      match feedbackTexts with
      | [] => [JS.Str (l10n_allSegmentsGood (p_l10n (params c)))]
      | _ => feedbackTexts
      end in
    Some
      match feedbackTexts with
      | [only] => ("<p>" ++ interpolate only ++ "</p>")%string
      | _ => ("<ul>" ++ listItems feedbackTexts ++ "</ul>")%string
      end.

(** [getText(concatenated = false)] of the content. *)
Definition getTexts (c : t) (concatenated : bool) : Texts :=
  textsOf (segments c) concatenated.

(** What the constructor establishes on positive weights.  The last
    field: when the first clamp fires, the second one does not undo
    it. *)
Record wellFormed (c : t) : Prop := {
  wf_positive : positiveWeights (segments c);
  wf_reference : firstHeaviest (segments c) (mostImportantSegment c);
  wf_gcd_positive : (0 < greatestCommonDivisor c)%Z;
  wf_gcd_divides : Forall (fun s => (greatestCommonDivisor c | getWeight s)%Z) (segments c);
  wf_no_override :
    forall R, (0 < R)%Q -> JS.ltb (JS.Fin R) (lowerBound c) = true ->
              JS.gtb (lowerBound c) (upperBound c) = false
}.

(** The bounds that a finite or missing [textLengthMin] and
    [textLengthMax] give. *)
Definition boundsSet (c : t) : Prop :=
  finiteOrUnset (lowerBound c) /\
  (finiteOrUnset (upperBound c) \/ upperBound c = JS.PInf).

End StructureStripContentMinMax.

(* ===================================================================== *)
(** ** The scenario of two segments *)
(* ===================================================================== *)

Definition demoL10n : L10n :=
  {| l10n_tooLong := "@chars too many";
     l10n_tooShort := "@chars too few";
     l10n_segmentTooLong := "@title: remove @chars characters";
     l10n_segmentTooShort := "@title: add @chars characters";
     l10n_allSegmentsGood := "All good" |}.

Definition introBody : list Segment :=
  [ {| title := "Intro"; weight := 1; text := "Hi" |};
    {| title := "Body"; weight := 3; text := "" |} ].

Definition introBodyParams (mode : FeedbackMode) : StructureStripContent.Params :=
  {| StructureStripContent.p_segments := introBody;
     StructureStripContent.p_slack := JS.Fin 10;
     StructureStripContent.p_feedbackMode := mode;
     StructureStripContent.p_l10n := demoL10n |}.

(** A single segment of weight 0. *)
Definition weightless : list Segment :=
  [ {| title := "Notes"; weight := 0; text := "abc" |} ].

Definition weightlessParams : StructureStripContent.Params :=
  {| StructureStripContent.p_segments := weightless;
     StructureStripContent.p_slack := JS.Fin 10;
     StructureStripContent.p_feedbackMode := onRequest;
     StructureStripContent.p_l10n := demoL10n |}.

Definition weightlessContent : StructureStripContent.t :=
  {| StructureStripContent.params := weightlessParams;
     StructureStripContent.segments := weightless;
     StructureStripContent.mostImportantSegment := 0;
     StructureStripContent.greatestCommonDivisor := 0 |}.

(** The two segments with length bounds [textLengthMin] and
    [textLengthMax]. *)
Definition introBodyBounded (textLengthMin textLengthMax : JS.number)
    : StructureStripContentMinMax.Params :=
  {| StructureStripContentMinMax.p_segments := introBody;
     StructureStripContentMinMax.p_slack := JS.Fin 10;
     StructureStripContentMinMax.p_textLengthMin := textLengthMin;
     StructureStripContentMinMax.p_textLengthMax := textLengthMax;
     StructureStripContentMinMax.p_feedbackMode := onRequest;
     StructureStripContentMinMax.p_l10n := demoL10n |}.

(** What the constructor builds from [introBodyParams onRequest]: Body
    (index 1) is the reference, the gcd of 1 and 3 is 1. *)
Definition introBodyContent : StructureStripContent.t :=
  {| StructureStripContent.params := introBodyParams onRequest;
     StructureStripContent.segments := introBody;
     StructureStripContent.mostImportantSegment := 1;
     StructureStripContent.greatestCommonDivisor := 1 |}.

(** What the constructor builds from [introBodyBounded]: the share of
    Body is 3/4. *)
Definition introBodyContentBounded (textLengthMin textLengthMax : JS.number)
    : StructureStripContentMinMax.t :=
  let percentage := JS.div (JS.ofZ 3) (JS.ofZ 4) in
  {| StructureStripContentMinMax.params :=
       {| StructureStripContentMinMax.p_segments := introBody;
          StructureStripContentMinMax.p_slack := JS.Fin 10;
          StructureStripContentMinMax.p_textLengthMin := textLengthMin;
          StructureStripContentMinMax.p_textLengthMax :=
            if JS.ltb (JS.mul textLengthMax percentage) textLengthMin
            then JS.PInf else textLengthMax;
          StructureStripContentMinMax.p_feedbackMode := onRequest;
          StructureStripContentMinMax.p_l10n := demoL10n |};
     StructureStripContentMinMax.segments := introBody;
     StructureStripContentMinMax.mostImportantSegment := 1;
     StructureStripContentMinMax.mostImportantSegmentPercentage := percentage;
     StructureStripContentMinMax.greatestCommonDivisor := 1 |}.

Definition introBodyParamsMinMax (mode : FeedbackMode) : StructureStripContentMinMax.Params :=
  {| StructureStripContentMinMax.p_segments := introBody;
     StructureStripContentMinMax.p_slack := JS.Fin 10;
     StructureStripContentMinMax.p_textLengthMin := JS.NaN;
     StructureStripContentMinMax.p_textLengthMax := JS.NaN;
     StructureStripContentMinMax.p_feedbackMode := mode;
     StructureStripContentMinMax.p_l10n := demoL10n |}.

(* ===================================================================== *)
(** ** The feedback band in the words of the specification *)
(* ===================================================================== *)

(** Exact rational arithmetic, no special values: the derivation of the
    band and of the verdict as the specification words it. *)
Module Spec.

Local Open Scope Q_scope.

Definition referenceLength (textLength : nat) (referenceWeight weightGCD : Z) : Q :=
  Qmax (inject_Z (Z.of_nat textLength)) (inject_Z referenceWeight / inject_Z weightGCD).

Definition normalizedReference (referenceLength : Q) (referenceWeight : Z) : Q :=
  referenceLength / inject_Z referenceWeight.

Definition bandMax (normalizedReference slackPercent : Q) : Q :=
  normalizedReference * (1 + slackPercent / 100).

Definition bandMin (normalizedReference slackPercent : Q) : Q :=
  normalizedReference * (1 - slackPercent / 100).

Definition normalizedLength (textLength : nat) (weight : Z) : Q :=
  inject_Z (Z.of_nat textLength) / inject_Z weight.


End Spec.

(** The verdict on rationals, with the comparisons of the code. *)
Definition verdictQ (normalizedLength bandMin bandMax : Q) : Verdict :=
  if JS.Qltb bandMax normalizedLength then tooLong
  else if JS.Qltb normalizedLength bandMin then tooShort
  else alright.

(** A rounding that sends positive rationals to natural numbers. *)
Definition roundsToNatural (r : JS.number -> JS.number) : Prop :=
  forall x, (0 < x)%Q -> exists z, (0 <= z)%Z /\ r (JS.Fin x) = JS.ofZ z.

(** The two clamps on rationals; a bound that never clamps (NaN, or
    Infinity from above) is [None]. *)
Definition clampQ (lower upper : option Q) (rs : Q * Q) : Q * Q :=
  let rs1 :=
    match lower with
    | Some l => if JS.Qltb (fst rs) l then (l, 0%Q) else rs
    | None => rs
    end in
  match upper with
  | Some u => if JS.Qltb u (fst rs1) then (u, 0%Q) else rs1
  | None => rs1
  end.

Definition boundOf (x : JS.number) : option Q :=
  match x with
  | JS.Fin a => Some a
  | _ => None
  end.

(** The verdict for a text of length [L] in a segment of inverse weight
    [iw], the band being derived from a reference length and a slack
    over a segment of the same weight. *)
Definition verdictOfBand (L iw : Q) (rs : Q * Q) : Verdict :=
  verdictQ (L * iw) (fst rs * iw * (1 - snd rs)) (fst rs * iw * (1 + snd rs)).

(** [x] is the finite number [q]. *)
Definition represents (x : JS.number) (q : Q) : Prop :=
  match x with
  | JS.Fin a => Qeq a q
  | _ => False
  end.

(* ===================================================================== *)
(** ** The two segments with other texts *)
(* ===================================================================== *)

Definition introBodyWith (intro body : string) : list Segment :=
  [ {| title := "Intro"; weight := 1; text := intro |};
    {| title := "Body"; weight := 3; text := body |} ].

Definition paramsWith (intro body : string) : StructureStripContent.Params :=
  {| StructureStripContent.p_segments := introBodyWith intro body;
     StructureStripContent.p_slack := JS.Fin 10;
     StructureStripContent.p_feedbackMode := onRequest;
     StructureStripContent.p_l10n := demoL10n |}.

Definition contentWith (intro body : string) : StructureStripContent.t :=
  {| StructureStripContent.params := paramsWith intro body;
     StructureStripContent.segments := introBodyWith intro body;
     StructureStripContent.mostImportantSegment := 1;
     StructureStripContent.greatestCommonDivisor := 1 |}.

(* ===================================================================== *)
(** ** Util.formatLanguageCode *)
(* ===================================================================== *)

(** Strings of language tags are ASCII; [toLowerCase] and [toUpperCase]
    are modelled on ASCII letters, where they change the case of A-Z and
    a-z and nothing else. *)
Definition isAsciiChar (c : ascii) : bool := Nat.ltb (nat_of_ascii c) 128.

Fixpoint isAscii (s : string) : bool :=
  match s with
  | EmptyString => true
  | String c s' => isAsciiChar c && isAscii s'
  end.

Definition toLowerChar (c : ascii) : ascii :=
  let n := nat_of_ascii c in
  if Nat.leb 65 n && Nat.leb n 90 then ascii_of_nat (n + 32) else c.

Definition toUpperChar (c : ascii) : ascii :=
  let n := nat_of_ascii c in
  if Nat.leb 97 n && Nat.leb n 122 then ascii_of_nat (n - 32) else c.

Fixpoint mapString (f : ascii -> ascii) (s : string) : string :=
  match s with
  | EmptyString => EmptyString
  | String c s' => String (f c) (mapString f s')
  end.

Definition toLowerCase : string -> string := mapString toLowerChar.
Definition toUpperCase : string -> string := mapString toUpperChar.

(** [s.includes(c)] for one character. *)
Fixpoint hasChar (c : ascii) (s : string) : bool :=
  match s with
  | EmptyString => false
  | String c' s' => Ascii.eqb c' c || hasChar c s'
  end.

(** [s.split(sep)] for a separator of one character: never empty. *)
Fixpoint split (sep : ascii) (s : string) : list string :=
  match s with
  | EmptyString => [EmptyString]
  | String c s' =>
      if Ascii.eqb c sep then EmptyString :: split sep s'
      else
        match split sep s' with
        | first :: rest => String c first :: rest
        | [] => [String c EmptyString]
        end
  end.

(** [formatLanguageCode(languageCode)]: anything but a string is
    returned as it is. *)
Definition formatLanguageCode (languageCode : JS.value) : JS.value :=
  match languageCode with
  | JS.Str code =>
      let segments := split "-" code in
      let segments :=
        match segments with
        | first :: rest => toLowerCase first :: rest
        | [] => segments
        end in
      let segments :=
        match segments with
        | first :: second :: rest => first :: toUpperCase second :: rest
        | _ => segments
        end in
      JS.Str (String.concat "-" segments)
  | _ => languageCode
  end.

(** The subtags after formatting: the first in lower case, the second
    in upper case. *)
Definition formattedSubtags (subtags : list string) : list string :=
  match subtags with
  | first :: second :: rest => toLowerCase first :: toUpperCase second :: rest
  | [first] => [toLowerCase first]
  | [] => []
  end.

(* ===================================================================== *)
(** ** Configurations compared *)
(* ===================================================================== *)




(* ===================================================================== *)
(** ** The embedding at work *)
(* ===================================================================== *)

Example gcd_of_three : Util.greatestCommonDivisorArray [12; 18; 30]%Z = Some 6%Z.
Proof. reflexivity. Qed.

Example gcd_falsy_accumulator : Util.greatestCommonDivisorArray [0; 4; 6]%Z = Some 1%Z.
Proof. reflexivity. Qed.

Example gcd_of_nothing : Util.greatestCommonDivisorArray [] = None.
Proof. reflexivity. Qed.

Example replace_every_occurrence :
  fillTemplate "@title: @chars (@title)" (segmentAt introBody 0) (JS.ofZ 12) =
  "Intro: 12 (Intro)"%string.
Proof. reflexivity. Qed.

Example replace_dollar_patterns :
  JS.replaceAll "@t" "[$&$$]" "a@t b@t@" = "a[@t$] b[@t$]@"%string.
Proof. reflexivity. Qed.

Example statuses_while_typing :
  StructureStripContentMinMax.updateSegments
    {| StructureStripContentMinMax.params := introBodyParamsMinMax continuously;
       StructureStripContentMinMax.segments := introBody;
       StructureStripContentMinMax.mostImportantSegment := 1;
       StructureStripContentMinMax.mostImportantSegmentPercentage :=
         JS.div (JS.ofZ 3) (JS.ofZ 4);
       StructureStripContentMinMax.greatestCommonDivisor := 1 |} =
  Some ["1 too many"; "3 too few"]%string.
Proof. reflexivity. Qed.

(* ===================================================================== *)
(** ** Greatest common divisor *)
(* ===================================================================== *)

Section GcdFacts.

Local Open Scope Z_scope.

Lemma greatestCommonDivisor_zero (a : Z) : Util.greatestCommonDivisor a 0 = a.
Proof. now simp greatestCommonDivisor. Qed.

Lemma greatestCommonDivisor_step (a b : Z) :
  b <> 0 -> Util.greatestCommonDivisor a b = Util.greatestCommonDivisor b (Z.rem a b).
Proof.
  intros Hb. rewrite Util.greatestCommonDivisor_equation_1.
  destruct (Z.eq_dec b 0) as [E | E]; [contradiction | reflexivity].
Qed.

(** On natural numbers the recursion computes the usual gcd. *)
Lemma greatestCommonDivisor_gcd (b : Z) :
  0 <= b -> forall a, 0 <= a -> Util.greatestCommonDivisor a b = Z.gcd a b.
Proof.
  intros Hb. generalize Hb. pattern b. apply Z_lt_induction; [| exact Hb].
  clear b Hb. intros b IH Hb a Ha.
  destruct (Z.eq_dec b 0) as [-> | Hnz].
  - rewrite greatestCommonDivisor_zero, Z.gcd_0_r. lia.
  - rewrite greatestCommonDivisor_step by exact Hnz.
    rewrite Z.rem_mod_nonneg by lia.
    assert (Hpos : 0 < b) by lia.
    pose proof (Z.mod_pos_bound a b Hpos) as Hm.
    rewrite IH by lia.
    rewrite Z.gcd_comm, Z.gcd_mod by exact Hnz. apply Z.gcd_comm.
Qed.

Lemma gcdStep_positive (previous current : Z) :
  0 < previous -> 0 < current ->
  Util.gcdStep previous current = Z.gcd previous current /\ 0 < Util.gcdStep previous current.
Proof.
  intros Hp Hc. unfold Util.gcdStep.
  destruct (Z.eqb_spec previous 0) as [E | _]; [lia |].
  rewrite greatestCommonDivisor_gcd by lia. split; [reflexivity |].
  pose proof (Z.gcd_nonneg previous current).
  assert (Z.gcd previous current <> 0); [| lia].
  intros E. apply Z.gcd_eq_0_l in E. lia.
Qed.

(** Folding the callback over positive numbers: the result is
    positive and divides the start value and every number folded. *)
Lemma fold_gcdStep_positive (numbers : list Z) :
  Forall (fun w => 0 < w) numbers ->
  forall start, 0 < start ->
    let g := fold_left Util.gcdStep numbers start in
    0 < g /\ (g | start) /\ Forall (fun w => (g | w)) numbers.
Proof.
  induction 1 as [| w rest Hw Hrest IH]; intros start Hstart; simpl.
  - repeat split; [exact Hstart | apply Z.divide_refl | constructor].
  - destruct (gcdStep_positive _ _ Hstart Hw) as [Eg Hg].
    destruct (IH _ Hg) as (Hpos & Hdiv & Hall).
    repeat split.
    + exact Hpos.
    + eapply Z.divide_trans; [exact Hdiv |].
      rewrite Eg. apply Z.gcd_divide_l.
    + constructor; [| exact Hall].
      eapply Z.divide_trans; [exact Hdiv |].
      rewrite Eg. apply Z.gcd_divide_r.
Qed.

Lemma greatestCommonDivisorArray_positive (numbers : list Z) :
  numbers <> [] ->
  Forall (fun w => 0 < w) numbers ->
  exists g, Util.greatestCommonDivisorArray numbers = Some g /\
            0 < g /\ Forall (fun w => (g | w)) numbers.
Proof.
  intros Hne Hall. destruct numbers as [| w rest]; [contradiction |].
  inversion Hall as [| ? ? Hw Hrest]; subst.
  destruct (fold_gcdStep_positive _ Hrest _ Hw) as (Hpos & Hdiv & Hforall).
  exists (fold_left Util.gcdStep rest w). repeat split.
  - exact Hpos.
  - constructor; assumption.
Qed.

(** A dividend that is not 0 never gives the gcd 0. *)
Lemma greatestCommonDivisor_nonzero (a b : Z) :
  a <> 0 -> Util.greatestCommonDivisor a b <> 0.
Proof.
  remember (Z.abs_nat b) as n eqn:En. revert a b En.
  induction n as [n IH] using lt_wf_ind. intros a b En Ha.
  destruct (Z.eq_dec b 0) as [-> | Hb].
  - rewrite greatestCommonDivisor_zero. exact Ha.
  - rewrite greatestCommonDivisor_step by exact Hb.
    apply (IH (Z.abs_nat (Z.rem a b))); [| reflexivity | exact Hb].
    pose proof (Z.rem_bound_abs a b Hb). lia.
Qed.

Lemma gcdStep_nonzero (previous current : Z) : Util.gcdStep previous current <> 0.
Proof.
  unfold Util.gcdStep. destruct (Z.eqb_spec previous 0) as [_ | Hp]; [lia |].
  apply greatestCommonDivisor_nonzero. exact Hp.
Qed.

Lemma fold_gcdStep_nonzero (numbers : list Z) :
  numbers <> [] -> forall start, fold_left Util.gcdStep numbers start <> 0.
Proof.
  induction numbers as [| x rest IH]; intros Hne start; [contradiction |].
  simpl. destruct rest as [| y rest'].
  - simpl. apply gcdStep_nonzero.
  - apply IH. discriminate.
Qed.

(** The gcd of the weights is 0 for exactly one array: [0]. *)
Lemma greatestCommonDivisorArray_zero (numbers : list Z) :
  Util.greatestCommonDivisorArray numbers = Some 0 <-> numbers = [0].
Proof.
  split.
  - destruct numbers as [| x rest]; [discriminate |].
    unfold Util.greatestCommonDivisorArray. simpl. intros H. inversion H as [E].
    destruct rest as [| y rest'].
    + simpl. reflexivity.
    + exfalso. revert E. apply fold_gcdStep_nonzero. discriminate.
  - intros ->. reflexivity.
Qed.

End GcdFacts.

(** C6.  On a non-empty list of positive integer weights,
    [greatestCommonDivisorArray] returns a number that divides every
    weight of the list; on a one-element list it returns the element. *)
Theorem weightGCD_divides_every_weight (numbers : list Z) :
  numbers <> [] ->
  Forall (fun w => 0 < w)%Z numbers ->
  (exists g, Util.greatestCommonDivisorArray numbers = Some g /\
             Forall (fun w => (g | w)%Z) numbers) /\
  (forall w, numbers = [w] -> Util.greatestCommonDivisorArray numbers = Some w).
Proof.
  intros Hne Hall. split.
  - destruct (greatestCommonDivisorArray_positive _ Hne Hall) as (g & Eg & _ & Hdiv).
    exists g. split; assumption.
  - intros w ->. reflexivity.
Qed.

Lemma weightGCD_divides_every_weight_witness :
  (exists g, Util.greatestCommonDivisorArray [12; 18; 30]%Z = Some g /\
             Forall (fun w => (g | w)%Z) [12; 18; 30]%Z) /\
  (forall w, [12; 18; 30]%Z = [w] ->
             Util.greatestCommonDivisorArray [12; 18; 30]%Z = Some w).
Proof.
  apply (@weightGCD_divides_every_weight [12; 18; 30]%Z).
  - discriminate.
  - repeat constructor.
Defined.

(* ===================================================================== *)
(** ** The reference segment *)
(* ===================================================================== *)

(** The reduction, started at [r] and run over the references
    [k, k+1, ..., k+m-1], keeps the first heaviest of those seen. *)
Lemma fold_heavier_invariant (segs : list Segment) (m : nat) :
  forall k r,
    r < k ->
    (forall j, j < k -> (weightAt segs j <= weightAt segs r)%Z) ->
    (forall j, j < r -> (weightAt segs j < weightAt segs r)%Z) ->
    let r' := fold_left (heavier segs) (seq k m) r in
    r' < k + m /\
    (forall j, j < k + m -> (weightAt segs j <= weightAt segs r')%Z) /\
    (forall j, j < r' -> (weightAt segs j < weightAt segs r')%Z).
Proof.
  induction m as [| m IH]; intros k r Hr Hmax Hfirst; simpl.
  - rewrite Nat.add_0_r. auto.
  - replace (k + S m) with (S k + m) by lia.
    apply IH; unfold heavier;
      destruct (Z.ltb_spec (weightAt segs r) (weightAt segs k)) as [Hlt | Hge].
    + lia.
    + lia.
    + intros j Hj. destruct (Nat.eq_dec j k) as [-> | Hne]; [lia |].
      specialize (Hmax j ltac:(lia)). lia.
    + intros j Hj. destruct (Nat.eq_dec j k) as [-> | Hne]; [lia |].
      apply Hmax. lia.
    + intros j Hj. specialize (Hmax j Hj). lia.
    + exact Hfirst.
Qed.

Lemma mostImportant_firstHeaviest (segs : list Segment) :
  segs <> [] -> exists r, mostImportant segs = Some r /\ firstHeaviest segs r.
Proof.
  intros Hne. unfold mostImportant, firstHeaviest.
  destruct (List.length segs) as [| n] eqn:En.
  - destruct segs; [contradiction | discriminate].
  - simpl. eexists. split; [reflexivity |].
    apply (@fold_heavier_invariant segs n 1 0).
    + lia.
    + intros j Hj. replace j with 0 by lia. lia.
    + intros j Hj. lia.
Qed.

(* ===================================================================== *)
(** ** Arithmetic on finite numbers *)
(* ===================================================================== *)

Section NumberFacts.

Local Open Scope Q_scope.

Lemma Qltb_true (a b : Q) : JS.Qltb a b = true <-> a < b.
Proof.
  unfold JS.Qltb. rewrite negb_true_iff.
  split; intros H.
  - apply Qnot_le_lt. intros Hle. apply Qle_bool_iff in Hle. congruence.
  - destruct (Qle_bool b a) eqn:E; [| reflexivity].
    apply Qle_bool_iff in E. exfalso. apply (Qlt_not_le _ _ H E).
Qed.

Lemma Qltb_false (a b : Q) : JS.Qltb a b = false <-> b <= a.
Proof.
  unfold JS.Qltb. rewrite negb_false_iff. apply Qle_bool_iff.
Qed.

Lemma Qis0_true (a : Q) : JS.Qis0 a = true <-> a == 0.
Proof. apply Qeq_bool_iff. Qed.

Lemma Qis0_false (a : Q) : JS.Qis0 a = false <-> ~ a == 0.
Proof.
  unfold JS.Qis0. split; intros H.
  - intros E. apply Qeq_bool_iff in E. congruence.
  - destruct (Qeq_bool a 0) eqn:E; [| reflexivity].
    apply Qeq_bool_iff in E. contradiction.
Qed.

Lemma inject_Z_pos (z : Z) : (0 < z)%Z -> 0 < inject_Z z.
Proof. intros H. unfold Qlt. simpl. lia. Qed.

Lemma inject_Z_nonneg (z : Z) : (0 <= z)%Z -> 0 <= inject_Z z.
Proof. intros H. unfold Qle. simpl. lia. Qed.

Lemma Qis0_inject_Z_pos (z : Z) : (0 < z)%Z -> JS.Qis0 (inject_Z z) = false.
Proof.
  intros H. apply Qis0_false. intros E.
  pose proof (inject_Z_pos _ H) as Hp. rewrite E in Hp. apply (Qlt_irrefl _ Hp).
Qed.

Lemma div_by_positive (a : Q) (z : Z) :
  (0 < z)%Z -> JS.div (JS.Fin a) (JS.ofZ z) = JS.Fin (a / inject_Z z).
Proof.
  intros H. unfold JS.div, JS.ofZ. now rewrite Qis0_inject_Z_pos.
Qed.

Lemma normalizedLength_positive (seg : Segment) :
  (0 < getWeight seg)%Z ->
  normalizedLength seg = JS.Fin (Spec.normalizedLength (textLength seg) (getWeight seg)).
Proof.
  intros H. unfold normalizedLength, JS.ofNat.
  unfold JS.ofZ at 1. now rewrite div_by_positive.
Qed.

(** The finding of a segment of positive weight against a finite
    band. *)
Lemma finding_finite_band (rL rS : JS.number -> JS.number) (bM bm : Q) (seg : Segment) :
  (0 < getWeight seg)%Z ->
  let nl := Spec.normalizedLength (textLength seg) (getWeight seg) in
  finding rL rS (JS.Fin bM) (JS.Fin bm) seg =
    if JS.Qltb bM nl then TooLong (rL (JS.Fin ((nl - bM) * inject_Z (getWeight seg))))
    else if JS.Qltb nl bm then TooShort (rS (JS.Fin ((bm - nl) * inject_Z (getWeight seg))))
    else Alright.
Proof.
  intros H nl. unfold finding. rewrite (normalizedLength_positive _ H).
  reflexivity.
Qed.



End NumberFacts.

(* ===================================================================== *)
(** ** What is pushed for a segment *)
(* ===================================================================== *)

Lemma segmentFeedback_pushed (rL rS : JS.number -> JS.number) (tpl : TextTemplates)
    (bM bm : JS.number) (seg : Segment) :
  segmentFeedback rL rS tpl bM bm seg = pushed tpl seg (finding rL rS bM bm seg).
Proof.
  unfold segmentFeedback, finding, pushed.
  destruct (JS.gtb (normalizedLength seg) bM); [reflexivity |].
  destruct (JS.ltb (normalizedLength seg) bm); reflexivity.
Qed.

Lemma map_nth_segment {B : Type} (f : Segment -> B) (segs : list Segment) (i : nat) (d : B) :
  i < List.length segs -> nth i (map f segs) d = f (segmentAt segs i).
Proof.
  intros Hi. unfold segmentAt.
  rewrite (nth_indep _ d (f defaultSegment)) by (rewrite length_map; exact Hi).
  apply map_nth.
Qed.

Lemma verdictOf_finite_band (rL rS : JS.number -> JS.number) (bM bm : Q) (seg : Segment) :
  (0 < getWeight seg)%Z ->
  verdictOf (finding rL rS (JS.Fin bM) (JS.Fin bm) seg) =
    verdictQ (Spec.normalizedLength (textLength seg) (getWeight seg)) bm bM.
Proof.
  intros H. rewrite (finding_finite_band _ _ _ _ _ H). unfold verdictQ.
  destruct (JS.Qltb bM _); [reflexivity |].
  destruct (JS.Qltb _ bm); reflexivity.
Qed.

(** The gaps against a finite band: the rounding of a positive
    rational. *)
Lemma gap_finite_band (rL rS : JS.number -> JS.number) (bM bm : Q) (seg : Segment) :
  (0 < getWeight seg)%Z ->
  match finding rL rS (JS.Fin bM) (JS.Fin bm) seg with
  | TooLong gap =>
      exists x, (0 < x)%Q /\ gap = rL (JS.Fin x) /\
        JS.mul (JS.sub (normalizedLength seg) (JS.Fin bM)) (JS.ofZ (getWeight seg)) = JS.Fin x
  | TooShort gap =>
      exists y, (0 < y)%Q /\ gap = rS (JS.Fin y) /\
        JS.mul (JS.sub (JS.Fin bm) (normalizedLength seg)) (JS.ofZ (getWeight seg)) = JS.Fin y
  | Alright => True
  end.
Proof.
  intros H. rewrite (finding_finite_band _ _ _ _ _ H).
  rewrite (normalizedLength_positive _ H).
  pose proof (inject_Z_pos _ H) as Hw.
  set (nl := Spec.normalizedLength (textLength seg) (getWeight seg)).
  destruct (JS.Qltb bM nl) eqn:E1.
  - apply Qltb_true in E1. eexists. split; [| split; reflexivity].
    apply Qmult_lt_0_compat; [| exact Hw]. lra.
  - destruct (JS.Qltb nl bm) eqn:E2; [| exact I].
    apply Qltb_true in E2. eexists. split; [| split; reflexivity].
    apply Qmult_lt_0_compat; [| exact Hw]. lra.
Qed.

Lemma floor_nonneg (x : Q) : (0 < x)%Q -> (0 <= Qfloor x)%Z.
Proof.
  intros H. change 0%Z with (Qfloor 0). apply Qfloor_resp_le. apply Qlt_le_weak. exact H.
Qed.

Lemma ceiling_positive (x : Q) : (0 < x)%Q -> (1 <= Qceiling x)%Z.
Proof.
  intros H. pose proof (Qle_ceiling x) as Hc.
  assert (Hlt : (inject_Z 0 < inject_Z (Qceiling x))%Q) by (eapply Qlt_le_trans; eassumption).
  rewrite <- Zlt_Qlt in Hlt. lia.
Qed.

Lemma round_nonneg (x : Q) : (0 < x)%Q -> (0 <= Qfloor (x + (1 # 2)))%Z.
Proof. intros H. apply floor_nonneg. lra. Qed.

Lemma floor_roundsToNatural : roundsToNatural JS.floor.
Proof. intros x Hx. exists (Qfloor x). split; [now apply floor_nonneg | reflexivity]. Qed.

Lemma ceil_roundsToNatural : roundsToNatural JS.ceil.
Proof.
  intros x Hx. exists (Qceiling x). split; [| reflexivity].
  pose proof (ceiling_positive x Hx). lia.
Qed.

Lemma round_roundsToNatural : roundsToNatural JS.round.
Proof.
  intros x Hx. exists (Qfloor (x + (1 # 2))). split; [now apply round_nonneg | reflexivity].
Qed.

Lemma gap_natural (rL rS : JS.number -> JS.number) (bM bm : Q) (seg : Segment)
    (gap : JS.number) :
  roundsToNatural rL -> roundsToNatural rS ->
  (0 < getWeight seg)%Z ->
  finding rL rS (JS.Fin bM) (JS.Fin bm) seg = TooLong gap \/
  finding rL rS (JS.Fin bM) (JS.Fin bm) seg = TooShort gap ->
  exists z, (0 <= z)%Z /\ gap = JS.ofZ z.
Proof.
  intros HrL HrS Hw Hf.
  pose proof (gap_finite_band rL rS bM bm seg Hw) as Hgap.
  destruct Hf as [Hf | Hf]; rewrite Hf in Hgap;
    destruct Hgap as (x & Hx & Egap & _); rewrite Egap.
  - apply HrL. exact Hx.
  - apply HrS. exact Hx.
Qed.

(* ===================================================================== *)
(** ** Typing in a segment *)
(* ===================================================================== *)

Lemma typeText_length (segs : list Segment) (i : nat) (t : string) :
  List.length (typeText segs i t) = List.length segs.
Proof.
  revert i. induction segs as [| s rest IH]; intros [| k]; simpl; auto.
Qed.

Lemma typeText_other (segs : list Segment) (i j : nat) (t : string) :
  j <> i -> segmentAt (typeText segs i t) j = segmentAt segs j.
Proof.
  unfold segmentAt. revert i j.
  induction segs as [| s rest IH]; intros [| i] [| j] Hne; simpl; auto;
    try contradiction.
Qed.

Lemma typeText_same (segs : list Segment) (i : nat) (t : string) :
  i < List.length segs ->
  segmentAt (typeText segs i t) i =
    {| title := title (segmentAt segs i); weight := weight (segmentAt segs i); text := t |}.
Proof.
  unfold segmentAt. revert i.
  induction segs as [| s rest IH]; intros [| i] Hi; simpl in *; try lia; auto.
  apply IH. lia.
Qed.

Lemma typeText_weight (segs : list Segment) (i j : nat) (t : string) :
  weightAt (typeText segs i t) j = weightAt segs j.
Proof.
  unfold weightAt, segmentAt. revert i j.
  induction segs as [| s rest IH]; intros [| i] [| j]; simpl; auto.
Qed.

Lemma typeText_weights (segs : list Segment) (i : nat) (t : string) :
  map getWeight (typeText segs i t) = map getWeight segs.
Proof.
  revert i. induction segs as [| s rest IH]; intros [| i]; simpl; auto.
  now rewrite IH.
Qed.

Lemma Forall_weight_typeText (P : Z -> Prop) (segs : list Segment) (i : nat) (t : string) :
  Forall (fun s => P (getWeight s)) segs ->
  Forall (fun s => P (getWeight s)) (typeText segs i t).
Proof.
  intros H. revert i. induction H as [| s rest Hs Hrest IH]; intros [| i]; simpl;
    constructor; auto.
Qed.

Lemma firstHeaviest_typeText (segs : list Segment) (i r : nat) (t : string) :
  firstHeaviest segs r -> firstHeaviest (typeText segs i t) r.
Proof.
  unfold firstHeaviest. rewrite typeText_length.
  intros (H1 & H2 & H3). repeat split.
  - exact H1.
  - intros j Hj. rewrite !typeText_weight. now apply H2.
  - intros j Hj. rewrite !typeText_weight. now apply H3.
Qed.

(* ===================================================================== *)
(** ** Monotonicity on rationals *)
(* ===================================================================== *)

Ltac qprops :=
  repeat match goal with
  | H : JS.Qltb _ _ = true |- _ => apply Qltb_true in H
  | H : JS.Qltb _ _ = false |- _ => apply Qltb_false in H
  end.

Ltac split_ifs :=
  repeat match goal with
  | |- context [JS.Qltb ?a ?b] =>
      let E := fresh "E" in destruct (JS.Qltb a b) eqn:E; simpl
  end.

Section Monotonicity.

Local Open Scope Q_scope.

(** Against a band that does not move, a longer text never gets a
    lower verdict. *)
Lemma verdictQ_mono_fixed (nl1 nl2 bm bM : Q) :
  nl1 <= nl2 -> (rank (verdictQ nl1 bm bM) <= rank (verdictQ nl2 bm bM))%nat.
Proof.
  intros H. unfold verdictQ. split_ifs; try lia; qprops; exfalso; lra.
Qed.

(** The reference segment: the band moves with its text.  [c] is the
    weight over the gcd, [R1] and [R2] the greater of [c] and the text
    length, before and after. *)
Lemma verdictOfBand_mono (lower upper : option Q) (c iw k L1 L2 R1 R2 : Q) :
  0 < c -> 0 < iw -> 0 <= L1 -> L1 <= L2 ->
  L1 <= R1 -> c <= R1 -> (R1 == L1 \/ R1 == c) ->
  L2 <= R2 -> c <= R2 -> (R2 == L2 \/ R2 == c) ->
  (forall l u, lower = Some l -> upper = Some u -> 0 < l -> l <= u) ->
  (rank (verdictOfBand L1 iw (clampQ lower upper (R1, k))) <=
   rank (verdictOfBand L2 iw (clampQ lower upper (R2, k))))%nat.
Proof.
  intros Hc Hiw HL1 HL HR1 HcR1 HR1' HR2 HcR2 HR2' Hinv.
  assert (HR12 : R1 <= R2) by (destruct HR1', HR2'; lra).
  assert (HP1 : 0 < R1 * iw) by nra.
  assert (HP2 : 0 < R2 * iw) by nra.
  assert (HP3 : 0 < c * iw) by nra.
  assert (HP4 : L1 * iw <= L2 * iw) by nra.
  assert (HP5 : 0 <= L1 * iw) by nra.
  unfold clampQ.
  destruct lower as [l |], upper as [u |]; simpl;
    try specialize (Hinv _ _ eq_refl eq_refl);
    try (destruct (JS.Qltb R1 l) eqn:El1; destruct (JS.Qltb R2 l) eqn:El2; simpl);
    split_ifs; unfold verdictOfBand, verdictQ; simpl; split_ifs;
    try lia; qprops; exfalso; destruct HR1', HR2';
    destruct (Qlt_le_dec k 0); nra.
Qed.

End Monotonicity.

(* ===================================================================== *)
(** ** The reference length and the band *)
(* ===================================================================== *)

Section BandFacts.

Local Open Scope Q_scope.

Lemma positiveWeights_at (segs : list Segment) (i : nat) :
  positiveWeights segs -> (i < List.length segs)%nat ->
  (0 < getWeight (segmentAt segs i))%Z.
Proof.
  intros Hpos Hi. unfold positiveWeights in Hpos.
  rewrite Forall_forall in Hpos. apply Hpos. apply nth_In. exact Hi.
Qed.

(** Without clamping the reference length is finite: the text length
    or the weight over the gcd, whichever is greater. *)
Lemma unclampedReferenceLength_finite (ref : Segment) (g : Z) :
  (0 < getWeight ref)%Z -> (0 < g)%Z ->
  exists R,
    unclampedReferenceLength ref g = JS.Fin R /\
    R == Spec.referenceLength (textLength ref) (getWeight ref) g /\
    inject_Z (Z.of_nat (textLength ref)) <= R /\
    inject_Z (getWeight ref) / inject_Z g <= R /\
    0 < inject_Z (getWeight ref) / inject_Z g /\
    (R == inject_Z (Z.of_nat (textLength ref)) \/
     R == inject_Z (getWeight ref) / inject_Z g).
Proof.
  intros Hw Hg.
  unfold unclampedReferenceLength, JS.ofNat.
  unfold JS.ofZ at 1. unfold JS.ofZ at 1. rewrite (div_by_positive _ _ Hg).
  fold (textLength ref).
  set (L := inject_Z (Z.of_nat (textLength ref))).
  set (u := inject_Z (getWeight ref) / inject_Z g).
  assert (Hu : 0 < u).
  { unfold u. apply Qlt_shift_div_l; [apply inject_Z_pos; exact Hg |].
    rewrite Qmult_0_l. apply inject_Z_pos; exact Hw. }
  unfold JS.max, JS.ltb, Spec.referenceLength. fold L. fold u.
  destruct (JS.Qltb L u) eqn:E.
  - apply Qltb_true in E. exists u. split; [reflexivity |].
    split; [symmetry; apply Q.max_r; apply Qlt_le_weak; exact E |].
    split; [apply Qlt_le_weak; exact E |].
    split; [apply Qle_refl |].
    split; [exact Hu | right; reflexivity].
  - apply Qltb_false in E. exists L. split; [reflexivity |].
    split; [symmetry; apply Q.max_l; exact E |].
    split; [apply Qle_refl |].
    split; [exact E |].
    split; [exact Hu | left; reflexivity].
Qed.





End BandFacts.

(* ===================================================================== *)
(** ** Facts on the content without length bounds *)
(* ===================================================================== *)

Module ContentFacts.

Import StructureStripContent.

Local Open Scope Q_scope.

Lemma constructor_inv (p : Params) (c : t) :
  constructor p = Some c ->
  params c = p /\ segments c = p_segments p /\
  mostImportant (segments c) = Some (mostImportantSegment c) /\
  Util.greatestCommonDivisorArray (map getWeight (segments c)) = Some (greatestCommonDivisor c).
Proof.
  unfold constructor. intros H.
  destruct (mostImportant (p_segments p)) as [r |] eqn:Er; [| discriminate].
  destruct (Util.greatestCommonDivisorArray (map getWeight (p_segments p))) as [g |] eqn:Eg;
    [| discriminate].
  inversion H; subst; simpl. auto.
Qed.

Lemma constructor_total (p : Params) :
  p_segments p <> [] -> exists c, constructor p = Some c.
Proof.
  intros Hne. unfold constructor.
  destruct (mostImportant_firstHeaviest _ Hne) as (r & -> & _).
  destruct (p_segments p) as [| s0 rest]; [contradiction |].
  simpl. eexists. reflexivity.
Qed.

Lemma constructor_wellFormed (p : Params) (c : t) :
  constructor p = Some c -> positiveWeights (p_segments p) -> wellFormed c.
Proof.
  intros Hc Hpos.
  destruct (constructor_inv _ _ Hc) as (_ & Es & Er & Eg).
  rewrite <- Es in Hpos.
  assert (Hne : segments c <> []).
  { intros E. rewrite E in Er. discriminate. }
  destruct (mostImportant_firstHeaviest _ Hne) as (r & Er' & Hr).
  rewrite Er in Er'. inversion Er'; subst r.
  assert (Hne' : map getWeight (segments c) <> []).
  { intros E. apply map_eq_nil in E. contradiction. }
  assert (Hpos' : Forall (fun w => (0 < w)%Z) (map getWeight (segments c))).
  { apply Forall_map. exact Hpos. }
  destruct (greatestCommonDivisorArray_positive _ Hne' Hpos') as (g & Eg' & Hg & Hdiv).
  rewrite Eg in Eg'. inversion Eg'; subst g.
  constructor; try assumption.
  rewrite Forall_forall in Hdiv. apply Forall_forall. intros seg Hin.
  apply Hdiv. apply in_map. exact Hin.
Qed.

Lemma wellFormed_reference_weight (c : t) :
  wellFormed c -> (0 < getWeight (reference c))%Z.
Proof.
  intros [Hpos (Hr & _) _ _]. apply positiveWeights_at; assumption.
Qed.

(** The band of a well-formed content with a finite slack. *)
Lemma band_finite (c : t) (s : Q) :
  wellFormed c -> p_slack (params c) = JS.Fin s ->
  exists R,
    let w := inject_Z (getWeight (reference c)) in
    let L := inject_Z (Z.of_nat (textLength (reference c))) in
    let u := w / inject_Z (greatestCommonDivisor c) in
    referenceLength c = JS.Fin R /\
    R == Spec.referenceLength (textLength (reference c)) (getWeight (reference c))
                              (greatestCommonDivisor c) /\
    L <= R /\ u <= R /\ 0 < u /\ (R == L \/ R == u) /\
    normalizedReferenceLength c = JS.Fin (R / w) /\
    normalizedLengthMax c = JS.Fin (R / w * (1 + s / 100)) /\
    normalizedLengthMin c = JS.Fin (R / w * (1 - s / 100)).
Proof.
  intros Hwf Hs.
  pose proof (wellFormed_reference_weight _ Hwf) as Hw.
  destruct (unclampedReferenceLength_finite _ _ Hw (wf_gcd_positive _ Hwf))
    as (R & ER & Espec & HL & Hu & Hu0 & Hcase).
  exists R. cbv zeta.
  assert (Enr : normalizedReferenceLength c = JS.Fin (R / inject_Z (getWeight (reference c)))).
  { unfold normalizedReferenceLength, referenceLength. rewrite ER.
    apply div_by_positive. exact Hw. }
  repeat (split; [assumption |]).
  split.
  - unfold normalizedLengthMax, slackPercentage. rewrite Enr, Hs. reflexivity.
  - unfold normalizedLengthMin, slackPercentage. rewrite Enr, Hs. reflexivity.
Qed.

Lemma findings_nth (c : t) (i : nat) :
  (i < List.length (segments c))%nat ->
  nth i (findings c) Alright = findingAt c i.
Proof. intros Hi. unfold findings, findingAt. now apply map_nth_segment. Qed.

Lemma buildFeedbackTexts_nth (c : t) (tpl : TextTemplates) (i : nat) (d : JS.value) :
  (i < List.length (segments c))%nat ->
  nth i (buildFeedbackTexts c tpl) d = pushed tpl (segmentAt (segments c) i) (findingAt c i).
Proof.
  intros Hi. unfold buildFeedbackTexts, findingAt.
  rewrite map_nth_segment by exact Hi. apply segmentFeedback_pushed.
Qed.

(** The reference segment against its own band, slack at least 0. *)
Lemma reference_within_max (c : t) (s : Q) :
  wellFormed c -> p_slack (params c) = JS.Fin s -> 0 <= s ->
  exists nl nr bM,
    normalizedLength (reference c) = JS.Fin nl /\
    normalizedReferenceLength c = JS.Fin nr /\
    normalizedLengthMax c = JS.Fin bM /\
    nl <= nr /\ nr <= bM /\
    verdictOf (findingAt c (mostImportantSegment c)) <> tooLong.
Proof.
  intros Hwf Hs Hs0.
  pose proof (wellFormed_reference_weight _ Hwf) as Hw.
  destruct (band_finite _ _ Hwf Hs) as (R & ER & _ & HL & Hu & Hu0 & _ & Enr & EM & Em).
  cbv zeta in *.
  set (w := inject_Z (getWeight (reference c))) in *.
  assert (HR : 0 < R) by (eapply Qlt_le_trans; eassumption).
  assert (Hwq : 0 < w) by (apply inject_Z_pos; exact Hw).
  assert (Hiw : 0 < / w) by (apply Qinv_lt_0_compat; exact Hwq).
  exists (Spec.normalizedLength (textLength (reference c)) (getWeight (reference c))),
         (R / w), (R / w * (1 + s / 100)).
  assert (H1 : Spec.normalizedLength (textLength (reference c)) (getWeight (reference c)) <= R / w).
  { unfold Spec.normalizedLength, Qdiv. fold w.
    apply Qmult_le_compat_r; [exact HL | apply Qlt_le_weak; exact Hiw]. }
  assert (H2 : R / w <= R / w * (1 + s / 100)).
  { assert (0 <= R / w) by (unfold Qdiv; apply Qmult_le_0_compat; apply Qlt_le_weak; assumption).
    assert (0 <= s / 100) by (unfold Qdiv; apply Qmult_le_0_compat; [exact Hs0 | discriminate]).
    nra. }
  repeat split; try assumption.
  - apply normalizedLength_positive. exact Hw.
  - unfold findingAt. fold (reference c). rewrite EM, Em.
    rewrite (verdictOf_finite_band _ _ _ _ _ Hw). unfold verdictQ.
    destruct (JS.Qltb (R / w * (1 + s / 100)) _) eqn:E.
    + apply Qltb_true in E. exfalso.
      apply (Qlt_not_le _ _ E). eapply Qle_trans; eassumption.
    + intros Habs. destruct (JS.Qltb _ _) in Habs; discriminate Habs.
Qed.

Lemma input_wellFormed (c : t) (i : nat) (txt : string) :
  wellFormed c -> wellFormed (input c i txt).
Proof.
  intros [H1 H2 H3 H4]. constructor; simpl.
  - apply (Forall_weight_typeText (fun w => (0 < w)%Z)). exact H1.
  - apply firstHeaviest_typeText. exact H2.
  - exact H3.
  - apply (Forall_weight_typeText (fun w => (greatestCommonDivisor c | w)%Z)). exact H4.
Qed.

Lemma input_length (c : t) (i : nat) (txt : string) :
  List.length (segments (input c i txt)) = List.length (segments c).
Proof. apply typeText_length. Qed.

(** A longer text in segment [i] never lowers the verdict on segment
    [i]. *)
Lemma verdict_monotone (c : t) (s : Q) (i : nat) (txt : string) :
  wellFormed c -> p_slack (params c) = JS.Fin s ->
  (i < List.length (segments c))%nat ->
  (textLength (segmentAt (segments c) i) <= String.length txt)%nat ->
  (rank (verdictOf (findingAt c i)) <= rank (verdictOf (findingAt (input c i txt) i)))%nat.
Proof.
  intros Hwf Hs Hi Hlen.
  pose proof (input_wellFormed c i txt Hwf) as Hwf'.
  assert (Hs' : p_slack (params (input c i txt)) = JS.Fin s) by exact Hs.
  destruct (band_finite _ _ Hwf Hs) as (R1 & _ & _ & HL1 & Hu1 & Hu0 & Hc1 & _ & EM1 & Em1).
  destruct (band_finite _ _ Hwf' Hs') as (R2 & _ & _ & HL2 & Hu2 & _ & Hc2 & _ & EM2 & Em2).
  cbv zeta in *.
  pose proof (positiveWeights_at _ _ (wf_positive _ Hwf) Hi) as Hwi.
  assert (Eseg : segmentAt (segments (input c i txt)) i =
                 {| title := title (segmentAt (segments c) i);
                    weight := weight (segmentAt (segments c) i);
                    text := txt |}).
  { apply typeText_same. exact Hi. }
  assert (HLq : inject_Z (Z.of_nat (textLength (segmentAt (segments c) i))) <=
                inject_Z (Z.of_nat (String.length txt))).
  { rewrite <- Zle_Qle. lia. }
  unfold findingAt. rewrite Eseg.
  destruct (Nat.eq_dec i (mostImportantSegment c)) as [-> | Hne].
  - (* the reference segment *)
    rewrite EM1, Em1, EM2, Em2.
    rewrite (verdictOf_finite_band _ _ _ _ _ Hwi).
    rewrite (verdictOf_finite_band _ _ _ _ {| title := _; weight := _; text := txt |} Hwi).
    assert (Eref : reference (input c (mostImportantSegment c) txt) =
                   {| title := title (reference c); weight := weight (reference c);
                      text := txt |}) by exact Eseg.
    rewrite Eref in *. fold (reference c) in *.
    unfold Spec.normalizedLength, textLength, getText, getWeight in *.
    cbn [text weight] in *.
    set (w := inject_Z (weight (reference c))) in *.
    set (g := inject_Z (greatestCommonDivisor c)) in *.
    assert (Hiw : 0 < / w) by (apply Qinv_lt_0_compat, inject_Z_pos; exact Hwi).
    apply (verdictOfBand_mono None None (w / g) (/ w) (s / 100)
             (inject_Z (Z.of_nat (String.length (text (reference c)))))
             (inject_Z (Z.of_nat (String.length txt))) R1 R2); try assumption.
    + apply inject_Z_nonneg. lia.
    + intros l u Habs. discriminate Habs.
  - (* another segment: the band is the same *)
    assert (Eref : reference (input c i txt) = reference c).
    { unfold reference. simpl. apply typeText_other. auto. }
    assert (EMM : normalizedLengthMax (input c i txt) = normalizedLengthMax c).
    { unfold normalizedLengthMax, normalizedReferenceLength, referenceLength.
      rewrite Eref. reflexivity. }
    assert (Emm : normalizedLengthMin (input c i txt) = normalizedLengthMin c).
    { unfold normalizedLengthMin, normalizedReferenceLength, referenceLength.
      rewrite Eref. reflexivity. }
    rewrite EMM, Emm, EM1, Em1.
    rewrite (verdictOf_finite_band _ _ _ _ _ Hwi).
    rewrite (verdictOf_finite_band _ _ _ _ {| title := _; weight := _; text := txt |} Hwi).
    apply verdictQ_mono_fixed.
    unfold Spec.normalizedLength, Qdiv.
    apply Qmult_le_compat_r; [exact HLq |].
    apply Qlt_le_weak, Qinv_lt_0_compat, inject_Z_pos. exact Hwi.
Qed.

End ContentFacts.

(* ===================================================================== *)
(** ** Facts on the content with length bounds *)
(* ===================================================================== *)

Module MinMaxFacts.

Import StructureStripContentMinMax.

Local Open Scope Q_scope.

Lemma constructor_inv_bounds (p : Params) (c : t) :
  constructor p = Some c ->
  segments c = p_segments p /\
  p_slack (params c) = p_slack p /\
  p_textLengthMin (params c) = p_textLengthMin p /\
  mostImportant (segments c) = Some (mostImportantSegment c) /\
  Util.greatestCommonDivisorArray (map getWeight (segments c)) = Some (greatestCommonDivisor c) /\
  mostImportantSegmentPercentage c =
    JS.div (JS.ofZ (getWeight (reference c))) (JS.ofZ (totalWeight (segments c))) /\
  p_textLengthMax (params c) =
    (if JS.ltb (JS.mul (p_textLengthMax p) (mostImportantSegmentPercentage c))
               (p_textLengthMin p)
     then JS.PInf else p_textLengthMax p).
Proof.
  unfold constructor. intros H.
  destruct (mostImportant (p_segments p)) as [r |] eqn:Er; [| discriminate].
  destruct (Util.greatestCommonDivisorArray (map getWeight (p_segments p))) as [g |] eqn:Eg;
    [| discriminate].
  inversion H; subst; simpl. repeat split; auto.
Qed.

Lemma constructor_total_bounds (p : Params) :
  p_segments p <> [] -> exists c, constructor p = Some c.
Proof.
  intros Hne. unfold constructor.
  destruct (mostImportant_firstHeaviest _ Hne) as (r & -> & _).
  destruct (p_segments p) as [| s0 rest]; [contradiction |].
  simpl. eexists. reflexivity.
Qed.

(** The sum of positive weights is at least each of them. *)
Lemma fold_weights_ge (segs : list Segment) :
  positiveWeights segs ->
  forall (a : Z) (r : nat), (r < List.length segs)%nat ->
    (a + getWeight (segmentAt segs r) <=
     fold_left (fun previous current => previous + getWeight current) segs a)%Z.
Proof.
  unfold segmentAt.
  induction 1 as [| s rest Hs Hrest IH]; intros a r Hr; simpl in *; [lia |].
  assert (Hmono : forall b, (b <= fold_left (fun previous current => previous + getWeight current)
                                   rest b)%Z).
  { clear - Hrest. induction Hrest as [| s' rest' Hs' _ IH']; intros b; simpl; [lia |].
    specialize (IH' (b + getWeight s')%Z). lia. }
  destruct r as [| r].
  - specialize (Hmono (a + getWeight s)%Z). lia.
  - specialize (IH (a + getWeight s)%Z r ltac:(lia)). lia.
Qed.

(** The share of the reference segment lies in (0, 1]. *)
Lemma percentage_positive (segs : list Segment) (r : nat) :
  positiveWeights segs -> (r < List.length segs)%nat ->
  exists q,
    JS.div (JS.ofZ (getWeight (segmentAt segs r))) (JS.ofZ (totalWeight segs)) = JS.Fin q /\
    0 < q /\ q <= 1.
Proof.
  intros Hpos Hr.
  pose proof (positiveWeights_at _ _ Hpos Hr) as Hw.
  pose proof (fold_weights_ge _ Hpos 0%Z r Hr) as Hsum. fold (totalWeight segs) in Hsum.
  assert (Ht : (0 < totalWeight segs)%Z) by lia.
  unfold JS.ofZ at 1. rewrite (div_by_positive _ _ Ht).
  eexists. split; [reflexivity |].
  pose proof (inject_Z_pos _ Hw) as Hwq. pose proof (inject_Z_pos _ Ht) as Htq.
  split.
  - apply Qlt_shift_div_l; [exact Htq |]. rewrite Qmult_0_l. exact Hwq.
  - apply Qle_shift_div_r; [exact Htq |]. rewrite Qmult_1_l.
    rewrite <- Zle_Qle. lia.
Qed.

Lemma Qcompare_pos (q : Q) : 0 < q -> (q ?= 0) = Gt.
Proof. intros H. apply Qgt_alt. exact H. Qed.

Lemma constructor_wellFormed_bounds (p : Params) (c : t) :
  constructor p = Some c -> positiveWeights (p_segments p) -> wellFormed c.
Proof.
  intros Hc Hpos.
  destruct (constructor_inv_bounds _ _ Hc) as (Es & _ & Emin & Er & Eg & Epct & Emax).
  rewrite <- Es in Hpos.
  assert (Hne : segments c <> []).
  { intros E. rewrite E in Er. discriminate. }
  destruct (mostImportant_firstHeaviest _ Hne) as (r & Er' & Hr).
  rewrite Er in Er'. inversion Er'; subst r.
  assert (Hne' : map getWeight (segments c) <> []).
  { intros E. apply map_eq_nil in E. contradiction. }
  assert (Hpos' : Forall (fun w => (0 < w)%Z) (map getWeight (segments c))).
  { apply Forall_map. exact Hpos. }
  destruct (greatestCommonDivisorArray_positive _ Hne' Hpos') as (g & Eg' & Hg & Hdiv).
  rewrite Eg in Eg'. inversion Eg'; subst g.
  constructor; try assumption.
  - rewrite Forall_forall in Hdiv. apply Forall_forall. intros seg Hin.
    apply Hdiv. apply in_map. exact Hin.
  - intros R HR Hlt.
    destruct (percentage_positive _ _ Hpos (proj1 Hr)) as (q & Eq & Hq0 & Hq1).
    fold (reference c) in Eq. rewrite <- Epct in Eq.
    unfold lowerBound, upperBound, JS.gtb in *.
    rewrite Emax, Emin, Eq in *.
    pose proof (Qcompare_pos _ Hq0) as Hcmp.
    destruct (p_textLengthMin p) as [m | | |]; simpl in Hlt;
      rewrite ?Hcmp in Hlt; simpl in Hlt; try discriminate Hlt.
    + (* a finite minimum *)
      apply Qltb_true in Hlt.
      destruct (p_textLengthMax p) as [M | | |];
        repeat (simpl; rewrite ?Hcmp); try reflexivity.
      destruct (JS.Qltb (M * q) m) eqn:E; repeat (simpl; rewrite ?Hcmp); [reflexivity |].
      apply Qltb_false in E. apply Qltb_false. nra.
    + (* an infinite minimum *)
      destruct (p_textLengthMax p) as [M | | |];
        repeat (simpl; rewrite ?Hcmp); reflexivity.
Qed.

Lemma wellFormed_reference_weight_bounds (c : t) :
  wellFormed c -> (0 < getWeight (reference c))%Z.
Proof.
  intros [Hpos (Hr & _) _ _ _]. apply positiveWeights_at; assumption.
Qed.

Lemma constructor_boundsSet (p : Params) (c : t) :
  constructor p = Some c -> positiveWeights (p_segments p) ->
  finiteOrUnset (p_textLengthMin p) -> finiteOrUnset (p_textLengthMax p) ->
  boundsSet c.
Proof.
  intros Hc Hpos Hmin Hmax.
  pose proof (constructor_wellFormed_bounds _ _ Hc Hpos) as Hwf.
  destruct (constructor_inv_bounds _ _ Hc) as (Es & _ & Emin & _ & _ & Epct & Emax).
  rewrite <- Es in Hpos.
  destruct (percentage_positive _ _ Hpos (proj1 (wf_reference _ Hwf))) as (q & Eq & Hq0 & _).
  fold (reference c) in Eq. rewrite <- Epct in Eq.
  pose proof (Qcompare_pos _ Hq0) as Hcmp.
  unfold boundsSet, lowerBound, upperBound. rewrite Emax, Emin, Eq.
  destruct (p_textLengthMin p) as [m | | |]; try contradiction;
    destruct (p_textLengthMax p) as [M | | |]; try contradiction;
    repeat (simpl; rewrite ?Hcmp); auto.
  destruct (JS.Qltb (M * q) m); repeat (simpl; rewrite ?Hcmp); auto.
Qed.

(** On rationals: a lower bound that can clamp lies below the upper
    bound. *)
Lemma bounds_ordered (c : t) :
  wellFormed c ->
  forall l u, boundOf (lowerBound c) = Some l -> boundOf (upperBound c) = Some u ->
              0 < l -> l <= u.
Proof.
  intros Hwf l u El Eu Hl.
  assert (Hhalf : 0 < l * (1 # 2)) by lra.
  pose proof (wf_no_override _ Hwf _ Hhalf) as H.
  destruct (lowerBound c) as [l' | | |]; try discriminate El.
  destruct (upperBound c) as [u' | | |]; try discriminate Eu.
  simpl in El, Eu. inversion El; inversion Eu; subst.
  unfold JS.gtb in H. simpl in H.
  apply Qltb_false. apply H. apply Qltb_true. lra.
Qed.

(** The band of a well-formed content with bounds and slack set. *)
Lemma band_finite_bounds (c : t) (s : Q) :
  wellFormed c -> boundsSet c -> p_slack (params c) = JS.Fin s ->
  exists R,
    let w := inject_Z (getWeight (reference c)) in
    let L := inject_Z (Z.of_nat (textLength (reference c))) in
    let u := w / inject_Z (greatestCommonDivisor c) in
    let rs := clampQ (boundOf (lowerBound c)) (boundOf (upperBound c)) (R, s / 100) in
    initialReferenceLength c = JS.Fin R /\
    L <= R /\ u <= R /\ 0 < u /\ (R == L \/ R == u) /\
    referenceLength c = JS.Fin (fst rs) /\
    slackPercentage c = JS.Fin (snd rs) /\
    normalizedLengthMax c = JS.Fin (fst rs / w * (1 + snd rs)) /\
    normalizedLengthMin c = JS.Fin (fst rs / w * (1 - snd rs)).
Proof.
  intros Hwf (Hlo & Hup) Hs.
  pose proof (wellFormed_reference_weight_bounds _ Hwf) as Hw.
  destruct (unclampedReferenceLength_finite _ _ Hw (wf_gcd_positive _ Hwf))
    as (R & ER & _ & HL & Hu & Hu0 & Hcase).
  exists R. cbv zeta.
  repeat (split; [assumption |]).
  assert (Ers : referenceLengthAndSlack c =
                (JS.Fin (fst (clampQ (boundOf (lowerBound c)) (boundOf (upperBound c))
                                     (R, s / 100))),
                 JS.Fin (snd (clampQ (boundOf (lowerBound c)) (boundOf (upperBound c))
                                     (R, s / 100))))).
  { unfold referenceLengthAndSlack, clampAbove, clampBelow, clampQ, JS.gtb,
      initialReferenceLength.
    rewrite ER, Hs.
    destruct (lowerBound c) as [l | | |]; try contradiction;
      destruct Hup as [Hup | Hup];
      destruct (upperBound c) as [u | | |]; try contradiction; try discriminate Hup;
      simpl; try reflexivity;
      try (destruct (JS.Qltb R l); simpl; try reflexivity);
      try (destruct (JS.Qltb u _); simpl; reflexivity). }
  assert (Enr : normalizedReferenceLength c =
                JS.Fin (fst (clampQ (boundOf (lowerBound c)) (boundOf (upperBound c))
                                    (R, s / 100)) / inject_Z (getWeight (reference c)))).
  { unfold normalizedReferenceLength, referenceLength. rewrite Ers. simpl fst.
    apply div_by_positive. exact Hw. }
  split; [unfold referenceLength; rewrite Ers; reflexivity |].
  split; [unfold slackPercentage; rewrite Ers; reflexivity |].
  split.
  - unfold normalizedLengthMax, slackPercentage. rewrite Enr, Ers. reflexivity.
  - unfold normalizedLengthMin, slackPercentage. rewrite Enr, Ers. reflexivity.
Qed.

Lemma findings_nth_bounds (c : t) (i : nat) :
  (i < List.length (segments c))%nat ->
  nth i (findings c) Alright = findingAt c i.
Proof. intros Hi. unfold findings, findingAt. now apply map_nth_segment. Qed.

Lemma buildFeedbackTexts_nth_bounds (c : t) (tpl : TextTemplates) (i : nat) (d : JS.value) :
  (i < List.length (segments c))%nat ->
  nth i (buildFeedbackTexts c tpl) d = pushed tpl (segmentAt (segments c) i) (findingAt c i).
Proof.
  intros Hi. unfold buildFeedbackTexts, findingAt.
  rewrite map_nth_segment by exact Hi. apply segmentFeedback_pushed.
Qed.

Lemma input_wellFormed_bounds (c : t) (i : nat) (txt : string) :
  wellFormed c -> wellFormed (input c i txt).
Proof.
  intros [H1 H2 H3 H4 H5]. constructor; simpl.
  - apply (Forall_weight_typeText (fun w => (0 < w)%Z)). exact H1.
  - apply firstHeaviest_typeText. exact H2.
  - exact H3.
  - apply (Forall_weight_typeText (fun w => (greatestCommonDivisor c | w)%Z)). exact H4.
  - exact H5.
Qed.

(** A longer text in segment [i] never lowers the verdict on segment
    [i]. *)
Lemma verdict_monotone_bounds (c : t) (s : Q) (i : nat) (txt : string) :
  wellFormed c -> boundsSet c -> p_slack (params c) = JS.Fin s ->
  (i < List.length (segments c))%nat ->
  (textLength (segmentAt (segments c) i) <= String.length txt)%nat ->
  (rank (verdictOf (findingAt c i)) <= rank (verdictOf (findingAt (input c i txt) i)))%nat.
Proof.
  intros Hwf Hb Hs Hi Hlen.
  pose proof (input_wellFormed_bounds c i txt Hwf) as Hwf'.
  assert (Hb' : boundsSet (input c i txt)) by exact Hb.
  assert (Hs' : p_slack (params (input c i txt)) = JS.Fin s) by exact Hs.
  destruct (band_finite_bounds _ _ Hwf Hb Hs) as (R1 & _ & HL1 & Hu1 & Hu0 & Hc1 & _ & _ & EM1 & Em1).
  destruct (band_finite_bounds _ _ Hwf' Hb' Hs') as (R2 & _ & HL2 & Hu2 & _ & Hc2 & _ & _ & EM2 & Em2).
  cbv zeta in *.
  pose proof (bounds_ordered _ Hwf) as Hord.
  change (lowerBound (input c i txt)) with (lowerBound c) in *.
  change (upperBound (input c i txt)) with (upperBound c) in *.
  pose proof (positiveWeights_at _ _ (wf_positive _ Hwf) Hi) as Hwi.
  assert (Eseg : segmentAt (segments (input c i txt)) i =
                 {| title := title (segmentAt (segments c) i);
                    weight := weight (segmentAt (segments c) i);
                    text := txt |}).
  { apply typeText_same. exact Hi. }
  assert (HLq : inject_Z (Z.of_nat (textLength (segmentAt (segments c) i))) <=
                inject_Z (Z.of_nat (String.length txt))).
  { rewrite <- Zle_Qle. lia. }
  unfold findingAt. rewrite Eseg.
  destruct (Nat.eq_dec i (mostImportantSegment c)) as [-> | Hne].
  - (* the reference segment *)
    rewrite EM1, Em1, EM2, Em2.
    rewrite (verdictOf_finite_band _ _ _ _ _ Hwi).
    rewrite (verdictOf_finite_band _ _ _ _ {| title := _; weight := _; text := txt |} Hwi).
    assert (Eref : reference (input c (mostImportantSegment c) txt) =
                   {| title := title (reference c); weight := weight (reference c);
                      text := txt |}) by exact Eseg.
    rewrite Eref in *. fold (reference c) in *.
    unfold Spec.normalizedLength, textLength, getText, getWeight in *.
    cbn [text weight] in *.
    set (w := inject_Z (weight (reference c))) in *.
    set (g := inject_Z (greatestCommonDivisor c)) in *.
    assert (Hiw : 0 < / w) by (apply Qinv_lt_0_compat, inject_Z_pos; exact Hwi).
    apply (verdictOfBand_mono (boundOf (lowerBound c)) (boundOf (upperBound c))
             (w / g) (/ w) (s / 100)
             (inject_Z (Z.of_nat (String.length (text (reference c)))))
             (inject_Z (Z.of_nat (String.length txt))) R1 R2); try assumption.
    apply inject_Z_nonneg. lia.
  - (* another segment: the band is the same *)
    assert (Eref : reference (input c i txt) = reference c).
    { unfold reference. simpl. apply typeText_other. auto. }
    assert (Ers : referenceLengthAndSlack (input c i txt) = referenceLengthAndSlack c).
    { unfold referenceLengthAndSlack, initialReferenceLength. rewrite Eref. reflexivity. }
    assert (EMM : normalizedLengthMax (input c i txt) = normalizedLengthMax c).
    { unfold normalizedLengthMax, normalizedReferenceLength, referenceLength, slackPercentage.
      rewrite Eref, Ers. reflexivity. }
    assert (Emm : normalizedLengthMin (input c i txt) = normalizedLengthMin c).
    { unfold normalizedLengthMin, normalizedReferenceLength, referenceLength, slackPercentage.
      rewrite Eref, Ers. reflexivity. }
    rewrite EMM, Emm, EM1, Em1.
    rewrite (verdictOf_finite_band _ _ _ _ _ Hwi).
    rewrite (verdictOf_finite_band _ _ _ _ {| title := _; weight := _; text := txt |} Hwi).
    apply verdictQ_mono_fixed.
    unfold Spec.normalizedLength, Qdiv.
    apply Qmult_le_compat_r; [exact HLq |].
    apply Qlt_le_weak, Qinv_lt_0_compat, inject_Z_pos. exact Hwi.
Qed.

End MinMaxFacts.

(* ===================================================================== *)
(** ** The reference segment is the first heaviest one *)
(* ===================================================================== *)

(** C5.  On a non-empty segment list the constructor succeeds, and the
    reference segment it chooses weighs at least as much as every
    segment and strictly more than every segment before it: it is the
    first of the heaviest segments, in input order.  Both revisions. *)
Theorem reference_segment_first_of_heaviest :
  (forall p : StructureStripContent.Params,
     StructureStripContent.p_segments p <> [] ->
     exists c,
       StructureStripContent.constructor p = Some c /\
       StructureStripContent.segments c = StructureStripContent.p_segments p /\
       firstHeaviest (StructureStripContent.segments c)
                     (StructureStripContent.mostImportantSegment c)) /\
  (forall p : StructureStripContentMinMax.Params,
     StructureStripContentMinMax.p_segments p <> [] ->
     exists c,
       StructureStripContentMinMax.constructor p = Some c /\
       StructureStripContentMinMax.segments c = StructureStripContentMinMax.p_segments p /\
       firstHeaviest (StructureStripContentMinMax.segments c)
                     (StructureStripContentMinMax.mostImportantSegment c)).
Proof.
  split; intros p Hne.
  - destruct (ContentFacts.constructor_total p Hne) as (c & Hc).
    exists c. split; [exact Hc |].
    destruct (ContentFacts.constructor_inv _ _ Hc) as (_ & Es & Er & _).
    split; [exact Es |].
    rewrite <- Es in Hne.
    destruct (mostImportant_firstHeaviest _ Hne) as (r & Er' & Hr).
    rewrite Er in Er'. inversion Er'; subst r. exact Hr.
  - destruct (MinMaxFacts.constructor_total_bounds p Hne) as (c & Hc).
    exists c. split; [exact Hc |].
    destruct (MinMaxFacts.constructor_inv_bounds _ _ Hc) as (Es & _ & _ & Er & _).
    split; [exact Es |].
    rewrite <- Es in Hne.
    destruct (mostImportant_firstHeaviest _ Hne) as (r & Er' & Hr).
    rewrite Er in Er'. inversion Er'; subst r. exact Hr.
Qed.

Lemma reference_segment_first_of_heaviest_witness :
  (exists c,
     StructureStripContent.constructor (introBodyParams onRequest) = Some c /\
     StructureStripContent.segments c = introBody /\
     firstHeaviest (StructureStripContent.segments c)
                   (StructureStripContent.mostImportantSegment c)) /\
  (exists c,
     StructureStripContentMinMax.constructor (introBodyParamsMinMax onRequest) = Some c /\
     StructureStripContentMinMax.segments c = introBody /\
     firstHeaviest (StructureStripContentMinMax.segments c)
                   (StructureStripContentMinMax.mostImportantSegment c)).
Proof.
  split.
  - apply (proj1 reference_segment_first_of_heaviest (introBodyParams onRequest)).
    discriminate.
  - apply (proj2 reference_segment_first_of_heaviest (introBodyParamsMinMax onRequest)).
    discriminate.
Defined.

(* ===================================================================== *)
(** ** The reference segment is never too long *)
(* ===================================================================== *)

(** C10.  Without length bounds, on positive weights and a slack of at
    least 0, the normalized length of the reference segment is at most
    the normalized reference length, which is at most the upper end of
    the band: the reference segment is never found too long. *)
Theorem reference_never_too_long
    (p : StructureStripContent.Params) (c : StructureStripContent.t) (s : Q) :
  StructureStripContent.constructor p = Some c ->
  positiveWeights (StructureStripContent.p_segments p) ->
  StructureStripContent.p_slack p = JS.Fin s ->
  (0 <= s)%Q ->
  (0 < StructureStripContent.greatestCommonDivisor c)%Z /\
  exists nl nr bM,
    normalizedLength (StructureStripContent.reference c) = JS.Fin nl /\
    StructureStripContent.normalizedReferenceLength c = JS.Fin nr /\
    StructureStripContent.normalizedLengthMax c = JS.Fin bM /\
    (nl <= nr)%Q /\ (nr <= bM)%Q /\
    verdictOf (StructureStripContent.findingAt c
                 (StructureStripContent.mostImportantSegment c)) <> tooLong.
Proof.
  intros Hc Hpos Hs Hs0.
  pose proof (ContentFacts.constructor_wellFormed _ _ Hc Hpos) as Hwf.
  destruct (ContentFacts.constructor_inv _ _ Hc) as (Ep & _).
  rewrite <- Ep in Hs.
  split; [apply (StructureStripContent.wf_gcd_positive _ Hwf) |].
  apply (ContentFacts.reference_within_max c s Hwf Hs Hs0).
Qed.

Lemma reference_never_too_long_witness :
  (0 < StructureStripContent.greatestCommonDivisor introBodyContent)%Z /\
  exists nl nr bM,
    normalizedLength (StructureStripContent.reference introBodyContent) = JS.Fin nl /\
    StructureStripContent.normalizedReferenceLength introBodyContent = JS.Fin nr /\
    StructureStripContent.normalizedLengthMax introBodyContent = JS.Fin bM /\
    (nl <= nr)%Q /\ (nr <= bM)%Q /\
    verdictOf (StructureStripContent.findingAt introBodyContent
                 (StructureStripContent.mostImportantSegment introBodyContent)) <> tooLong.
Proof.
  apply (@reference_never_too_long (introBodyParams onRequest) introBodyContent 10%Q).
  - reflexivity.
  - repeat constructor.
  - reflexivity.
  - unfold Qle. simpl. lia.
Defined.

(* ===================================================================== *)
(** ** Monotonicity of the verdict *)
(* ===================================================================== *)

(** C8.  A content built on positive weights, any slack and any texts:
    when one segment gets a text at least as long and the other texts
    stay, the verdict on that segment keeps its place or moves forward
    in the order too short, alright, too long.  Both revisions; with
    length bounds, these are finite numbers or not set. *)
Theorem longer_text_never_lowers_verdict :
  (forall (p : StructureStripContent.Params) (c : StructureStripContent.t)
          (s : Q) (i : nat) (txt : string),
     StructureStripContent.constructor p = Some c ->
     positiveWeights (StructureStripContent.p_segments p) ->
     StructureStripContent.p_slack p = JS.Fin s ->
     i < List.length (StructureStripContent.segments c) ->
     textLength (segmentAt (StructureStripContent.segments c) i) <= String.length txt ->
     rank (verdictOf (StructureStripContent.findingAt c i)) <=
     rank (verdictOf (StructureStripContent.findingAt
                        (StructureStripContent.input c i txt) i))) /\
  (forall (p : StructureStripContentMinMax.Params) (c : StructureStripContentMinMax.t)
          (s : Q) (i : nat) (txt : string),
     StructureStripContentMinMax.constructor p = Some c ->
     positiveWeights (StructureStripContentMinMax.p_segments p) ->
     StructureStripContentMinMax.p_slack p = JS.Fin s ->
     finiteOrUnset (StructureStripContentMinMax.p_textLengthMin p) ->
     finiteOrUnset (StructureStripContentMinMax.p_textLengthMax p) ->
     i < List.length (StructureStripContentMinMax.segments c) ->
     textLength (segmentAt (StructureStripContentMinMax.segments c) i) <= String.length txt ->
     rank (verdictOf (StructureStripContentMinMax.findingAt c i)) <=
     rank (verdictOf (StructureStripContentMinMax.findingAt
                        (StructureStripContentMinMax.input c i txt) i))).
Proof.
  split.
  - intros p c s i txt Hc Hpos Hs Hi Hlen.
    pose proof (ContentFacts.constructor_wellFormed _ _ Hc Hpos) as Hwf.
    destruct (ContentFacts.constructor_inv _ _ Hc) as (Ep & _).
    rewrite <- Ep in Hs.
    exact (ContentFacts.verdict_monotone c s i txt Hwf Hs Hi Hlen).
  - intros p c s i txt Hc Hpos Hs Hmin Hmax Hi Hlen.
    pose proof (MinMaxFacts.constructor_wellFormed_bounds _ _ Hc Hpos) as Hwf.
    pose proof (MinMaxFacts.constructor_boundsSet _ _ Hc Hpos Hmin Hmax) as Hb.
    destruct (MinMaxFacts.constructor_inv_bounds _ _ Hc) as (_ & Es & _).
    rewrite <- Es in Hs.
    exact (MinMaxFacts.verdict_monotone_bounds c s i txt Hwf Hb Hs Hi Hlen).
Qed.

Lemma longer_text_never_lowers_verdict_witness :
  rank (verdictOf (StructureStripContent.findingAt introBodyContent 1)) <=
  rank (verdictOf (StructureStripContent.findingAt
                     (StructureStripContent.input introBodyContent 1 "Body text") 1)) /\
  rank (verdictOf (StructureStripContentMinMax.findingAt
                     (introBodyContentBounded (JS.Fin 100) (JS.Fin 200)) 1)) <=
  rank (verdictOf (StructureStripContentMinMax.findingAt
                     (StructureStripContentMinMax.input
                        (introBodyContentBounded (JS.Fin 100) (JS.Fin 200)) 1
                        "Body text") 1)).
Proof.
  split.
  - apply (proj1 longer_text_never_lowers_verdict (introBodyParams onRequest)
                 introBodyContent 10%Q 1 "Body text"%string).
    + reflexivity.
    + repeat constructor.
    + reflexivity.
    + vm_compute. lia.
    + vm_compute. lia.
  - apply (proj2 longer_text_never_lowers_verdict
                 (introBodyBounded (JS.Fin 100) (JS.Fin 200))
                 (introBodyContentBounded (JS.Fin 100) (JS.Fin 200))
                 10%Q 1 "Body text"%string).
    + reflexivity.
    + repeat constructor.
    + reflexivity.
    + exact I.
    + exact I.
    + vm_compute. lia.
    + vm_compute. lia.
Defined.

(* ===================================================================== *)
(** ** Clamping to the length bounds *)
(* ===================================================================== *)



(* ===================================================================== *)
(** ** Gaps are natural numbers; a too-long gap of 0 is suppressed *)
(* ===================================================================== *)

(** C4.  On positive weights and a finite slack (and, with length
    bounds, bounds that are finite or not set): the gap of a segment
    found too long or too short is a natural number; a segment found too
    long with a gap of 0 gets the entry null, whatever the template for
    alright is, and with another gap the filled too-long template.  Both
    revisions. *)
Theorem gaps_natural_and_zero_gap_suppressed :
  (forall (p : StructureStripContent.Params) (c : StructureStripContent.t)
          (s : Q) (i : nat) (gap : JS.number) (tpl : TextTemplates),
     StructureStripContent.constructor p = Some c ->
     positiveWeights (StructureStripContent.p_segments p) ->
     StructureStripContent.p_slack p = JS.Fin s ->
     i < List.length (StructureStripContent.segments c) ->
     (StructureStripContent.findingAt c i = TooLong gap \/
      StructureStripContent.findingAt c i = TooShort gap ->
      exists z, (0 <= z)%Z /\ gap = JS.ofZ z) /\
     (StructureStripContent.findingAt c i = TooLong gap ->
      nth i (StructureStripContent.buildFeedbackTexts c tpl) JS.Undefined =
        if JS.isZero gap then JS.Null
        else JS.Str (fillTemplate (tpl_tooLong tpl)
                       (segmentAt (StructureStripContent.segments c) i) gap))) /\
  (forall (p : StructureStripContentMinMax.Params) (c : StructureStripContentMinMax.t)
          (s : Q) (i : nat) (gap : JS.number) (tpl : TextTemplates),
     StructureStripContentMinMax.constructor p = Some c ->
     positiveWeights (StructureStripContentMinMax.p_segments p) ->
     StructureStripContentMinMax.p_slack p = JS.Fin s ->
     finiteOrUnset (StructureStripContentMinMax.p_textLengthMin p) ->
     finiteOrUnset (StructureStripContentMinMax.p_textLengthMax p) ->
     i < List.length (StructureStripContentMinMax.segments c) ->
     (StructureStripContentMinMax.findingAt c i = TooLong gap \/
      StructureStripContentMinMax.findingAt c i = TooShort gap ->
      exists z, (0 <= z)%Z /\ gap = JS.ofZ z) /\
     (StructureStripContentMinMax.findingAt c i = TooLong gap ->
      nth i (StructureStripContentMinMax.buildFeedbackTexts c tpl) JS.Undefined =
        if JS.isZero gap then JS.Null
        else JS.Str (fillTemplate (tpl_tooLong tpl)
                       (segmentAt (StructureStripContentMinMax.segments c) i) gap))).
Proof.
  split.
  - intros p c s i gap tpl Hc Hpos Hs Hi.
    pose proof (ContentFacts.constructor_wellFormed _ _ Hc Hpos) as Hwf.
    destruct (ContentFacts.constructor_inv _ _ Hc) as (Ep & _).
    rewrite <- Ep in Hs.
    destruct (ContentFacts.band_finite _ _ Hwf Hs)
      as (R & _ & _ & _ & _ & _ & _ & _ & EM & Em).
    cbv zeta in *.
    pose proof (positiveWeights_at _ _ (StructureStripContent.wf_positive _ Hwf) Hi) as Hwi.
    split.
    + unfold StructureStripContent.findingAt. rewrite EM, Em.
      apply gap_natural; auto using floor_roundsToNatural, ceil_roundsToNatural.
    + intros Hf. rewrite (ContentFacts.buildFeedbackTexts_nth _ _ _ _ Hi), Hf.
      reflexivity.
  - intros p c s i gap tpl Hc Hpos Hs Hmin Hmax Hi.
    pose proof (MinMaxFacts.constructor_wellFormed_bounds _ _ Hc Hpos) as Hwf.
    pose proof (MinMaxFacts.constructor_boundsSet _ _ Hc Hpos Hmin Hmax) as Hb.
    destruct (MinMaxFacts.constructor_inv_bounds _ _ Hc) as (_ & Es & _).
    rewrite <- Es in Hs.
    destruct (MinMaxFacts.band_finite_bounds _ _ Hwf Hb Hs)
      as (R & _ & _ & _ & _ & _ & _ & _ & EM & Em).
    cbv zeta in *.
    pose proof (positiveWeights_at _ _ (StructureStripContentMinMax.wf_positive _ Hwf) Hi) as Hwi.
    split.
    + unfold StructureStripContentMinMax.findingAt. rewrite EM, Em.
      apply gap_natural; auto using round_roundsToNatural.
    + intros Hf. rewrite (MinMaxFacts.buildFeedbackTexts_nth_bounds _ _ _ _ Hi), Hf.
      reflexivity.
Qed.

Lemma gaps_natural_and_zero_gap_suppressed_witness :
  ((StructureStripContent.findingAt introBodyContent 0 = TooLong (JS.Fin 0) \/
    StructureStripContent.findingAt introBodyContent 0 = TooShort (JS.Fin 0) ->
    exists z, (0 <= z)%Z /\ JS.Fin 0 = JS.ofZ z) /\
   (StructureStripContent.findingAt introBodyContent 0 = TooLong (JS.Fin 0) ->
    nth 0 (StructureStripContent.buildFeedbackTexts introBodyContent
             (StructureStripContent.checkAnswerTemplates introBodyContent)) JS.Undefined =
      if JS.isZero (JS.Fin 0) then JS.Null
      else JS.Str (fillTemplate
                     (tpl_tooLong (StructureStripContent.checkAnswerTemplates introBodyContent))
                     (segmentAt (StructureStripContent.segments introBodyContent) 0)
                     (JS.Fin 0)))) /\
  StructureStripContent.findingAt introBodyContent 0 = TooLong (JS.Fin 0).
Proof.
  split; [| reflexivity].
  apply (proj1 gaps_natural_and_zero_gap_suppressed (introBodyParams onRequest)
               introBodyContent 10%Q 0 (JS.Fin 0)
               (StructureStripContent.checkAnswerTemplates introBodyContent)).
  - reflexivity.
  - repeat constructor.
  - reflexivity.
  - vm_compute. lia.
Defined.

(* ===================================================================== *)
(** ** The derivation of the band *)
(* ===================================================================== *)




(* ===================================================================== *)
(** ** Rounding of the gaps *)
(* ===================================================================== *)




(* ===================================================================== *)
(** ** The scenario of Intro and Body *)
(* ===================================================================== *)

(** C3, as amended.  Segments Intro (weight 1, text Hi) and Body (weight
    3, empty), slack 10, no length bounds set: in both revisions Body is
    the reference, the reference length is max(0, 3/1) = 3, the
    normalized reference is 1, the band maximum is 11/10, and Intro, of
    normalized length 2, is found too long.  Rounding to the nearest
    integer reports the gap 1; rounding with floor gives the gap 0 and
    the entry null. *)
Theorem intro_body_scenario :
  StructureStripContent.constructor (introBodyParams onRequest) = Some introBodyContent /\
  StructureStripContentMinMax.constructor (introBodyParamsMinMax onRequest) =
    Some (introBodyContentBounded JS.NaN JS.NaN) /\
  title (StructureStripContent.reference introBodyContent) = "Body"%string /\
  title (StructureStripContentMinMax.reference (introBodyContentBounded JS.NaN JS.NaN)) =
    "Body"%string /\
  represents (StructureStripContent.referenceLength introBodyContent) 3 /\
  represents (StructureStripContentMinMax.referenceLength
                (introBodyContentBounded JS.NaN JS.NaN)) 3 /\
  represents (StructureStripContent.normalizedReferenceLength introBodyContent) 1 /\
  represents (StructureStripContentMinMax.normalizedReferenceLength
                (introBodyContentBounded JS.NaN JS.NaN)) 1 /\
  represents (StructureStripContent.normalizedLengthMax introBodyContent) (11 # 10) /\
  represents (StructureStripContentMinMax.normalizedLengthMax
                (introBodyContentBounded JS.NaN JS.NaN)) (11 # 10) /\
  represents (normalizedLength (segmentAt introBody 0)) 2 /\
  StructureStripContentMinMax.findingAt (introBodyContentBounded JS.NaN JS.NaN) 0 =
    TooLong (JS.Fin 1) /\
  nth 0 (StructureStripContentMinMax.buildFeedbackTexts
           (introBodyContentBounded JS.NaN JS.NaN)
           (StructureStripContentMinMax.checkAnswerTemplates
              (introBodyContentBounded JS.NaN JS.NaN))) JS.Undefined =
    JS.Str "Intro: remove 1 characters" /\
  StructureStripContent.findingAt introBodyContent 0 = TooLong (JS.Fin 0) /\
  nth 0 (StructureStripContent.buildFeedbackTexts introBodyContent
           (StructureStripContent.checkAnswerTemplates introBodyContent)) JS.Undefined =
    JS.Null.
Proof.
  repeat split; reflexivity.
Qed.

(** C3 as worded fails without length bounds, where the gap is rounded
    with floor: the excess 9/10 of Intro gives the gap 0, not 1, and no
    message. *)
Lemma intro_gap_is_zero_with_floor :
  StructureStripContent.constructor (introBodyParams onRequest) = Some introBodyContent /\
  StructureStripContent.findingAt introBodyContent 0 = TooLong (JS.Fin 0) /\
  StructureStripContent.findingAt introBodyContent 0 <> TooLong (JS.Fin 1) /\
  nth 0 (StructureStripContent.buildFeedbackTexts introBodyContent
           (StructureStripContent.checkAnswerTemplates introBodyContent)) JS.Undefined =
    JS.Null /\
  StructureStripContent.checkAnswer introBodyContent =
    Some "<p>Body: add 3 characters</p>"%string.
Proof.
  split; [reflexivity |].
  split; [reflexivity |].
  split; [intros H; vm_compute in H; discriminate H |].
  split; reflexivity.
Qed.

(* ===================================================================== *)
(** ** A gcd of 0 *)
(* ===================================================================== *)

(** Without a positive weight the band is NaN and nothing is too long
    or too short. *)
Lemma ltb_NaN_r (x : JS.number) : JS.ltb x JS.NaN = false.
Proof. destruct x; reflexivity. Qed.

Lemma segmentFeedback_NaN_band (rL rS : JS.number -> JS.number) (tpl : TextTemplates)
    (seg : Segment) :
  segmentFeedback rL rS tpl JS.NaN JS.NaN seg = tpl_alright tpl.
Proof.
  unfold segmentFeedback, JS.gtb. simpl. rewrite ltb_NaN_r. reflexivity.
Qed.

(** C9, as amended.  [buildFeedbackTexts] has no failure: for every
    content and templates it returns one entry per segment, in both
    revisions.  The gcd of the weights is 0 only for a single segment of
    weight 0, and then the evaluation returns the alright entry for that
    segment, in both revisions. *)
Theorem evaluation_never_fails :
  (forall (c : StructureStripContent.t) (tpl : TextTemplates),
     List.length (StructureStripContent.buildFeedbackTexts c tpl) =
     List.length (StructureStripContent.segments c)) /\
  (forall (c : StructureStripContentMinMax.t) (tpl : TextTemplates),
     List.length (StructureStripContentMinMax.buildFeedbackTexts c tpl) =
     List.length (StructureStripContentMinMax.segments c)) /\
  (forall (p : StructureStripContent.Params) (c : StructureStripContent.t)
          (tpl : TextTemplates),
     StructureStripContent.constructor p = Some c ->
     StructureStripContent.greatestCommonDivisor c = 0%Z ->
     exists seg,
       StructureStripContent.segments c = [seg] /\ getWeight seg = 0%Z /\
       StructureStripContent.buildFeedbackTexts c tpl = [tpl_alright tpl]) /\
  (forall (p : StructureStripContentMinMax.Params) (c : StructureStripContentMinMax.t)
          (tpl : TextTemplates),
     StructureStripContentMinMax.constructor p = Some c ->
     StructureStripContentMinMax.greatestCommonDivisor c = 0%Z ->
     exists seg,
       StructureStripContentMinMax.segments c = [seg] /\ getWeight seg = 0%Z /\
       StructureStripContentMinMax.buildFeedbackTexts c tpl = [tpl_alright tpl]).
Proof.
  split; [| split; [| split]].
  - intros c tpl. apply length_map.
  - intros c tpl. apply length_map.
  - intros p c tpl Hc Hg.
    destruct (ContentFacts.constructor_inv _ _ Hc) as (_ & _ & Er & Eg).
    rewrite Hg in Eg. apply greatestCommonDivisorArray_zero in Eg.
    destruct (StructureStripContent.segments c) as [| seg [| seg' rest]] eqn:Es;
      try discriminate Eg.
    simpl in Eg. injection Eg as Ew.
    exists seg. split; [reflexivity |]. split; [exact Ew |].
    assert (Eref : StructureStripContent.mostImportantSegment c = 0).
    { unfold mostImportant in Er. simpl in Er. now inversion Er. }
    assert (EM : StructureStripContent.normalizedLengthMax c = JS.NaN).
    { unfold StructureStripContent.normalizedLengthMax,
        StructureStripContent.normalizedReferenceLength,
        StructureStripContent.referenceLength, StructureStripContent.reference,
        unclampedReferenceLength.
      rewrite Es, Eref, Hg. unfold segmentAt. simpl nth. rewrite Ew. reflexivity. }
    assert (Em : StructureStripContent.normalizedLengthMin c = JS.NaN).
    { unfold StructureStripContent.normalizedLengthMin,
        StructureStripContent.normalizedReferenceLength,
        StructureStripContent.referenceLength, StructureStripContent.reference,
        unclampedReferenceLength.
      rewrite Es, Eref, Hg. unfold segmentAt. simpl nth. rewrite Ew. reflexivity. }
    unfold StructureStripContent.buildFeedbackTexts. rewrite EM, Em, Es. simpl.
    rewrite segmentFeedback_NaN_band. reflexivity.
  - intros p c tpl Hc Hg.
    destruct (MinMaxFacts.constructor_inv_bounds _ _ Hc) as (_ & _ & _ & Er & Eg & Epct & _).
    rewrite Hg in Eg. apply greatestCommonDivisorArray_zero in Eg.
    unfold StructureStripContentMinMax.reference in Epct.
    destruct (StructureStripContentMinMax.segments c) as [| seg [| seg' rest]] eqn:Es;
      try discriminate Eg.
    simpl in Eg. injection Eg as Ew.
    exists seg. split; [reflexivity |]. split; [exact Ew |].
    assert (Eref : StructureStripContentMinMax.mostImportantSegment c = 0).
    { unfold mostImportant in Er. simpl in Er. now inversion Er. }
    assert (Ers : fst (StructureStripContentMinMax.referenceLengthAndSlack c) = JS.NaN).
    { unfold StructureStripContentMinMax.referenceLengthAndSlack,
        StructureStripContentMinMax.clampAbove, StructureStripContentMinMax.clampBelow,
        StructureStripContentMinMax.lowerBound, StructureStripContentMinMax.upperBound,
        StructureStripContentMinMax.initialReferenceLength,
        StructureStripContentMinMax.reference, unclampedReferenceLength, JS.gtb.
      rewrite Es, Eref, Hg, Epct, Eref. unfold segmentAt, StructureStripContentMinMax.totalWeight.
      simpl nth. simpl fold_left. rewrite Ew. simpl.
      destruct (StructureStripContentMinMax.p_textLengthMin
                  (StructureStripContentMinMax.params c));
        destruct (StructureStripContentMinMax.p_textLengthMax
                    (StructureStripContentMinMax.params c)); reflexivity. }
    assert (Enr : StructureStripContentMinMax.normalizedReferenceLength c = JS.NaN).
    { unfold StructureStripContentMinMax.normalizedReferenceLength,
        StructureStripContentMinMax.referenceLength. rewrite Ers. reflexivity. }
    unfold StructureStripContentMinMax.buildFeedbackTexts,
      StructureStripContentMinMax.normalizedLengthMax,
      StructureStripContentMinMax.normalizedLengthMin.
    rewrite Enr, Es. simpl. rewrite segmentFeedback_NaN_band. reflexivity.
Qed.

Lemma evaluation_never_fails_witness :
  exists seg,
    StructureStripContent.segments weightlessContent = [seg] /\ getWeight seg = 0%Z /\
    StructureStripContent.buildFeedbackTexts weightlessContent
      (StructureStripContent.checkAnswerTemplates weightlessContent) =
      [tpl_alright (StructureStripContent.checkAnswerTemplates weightlessContent)].
Proof.
  apply (proj1 (proj2 (proj2 evaluation_never_fails)) weightlessParams weightlessContent
               (StructureStripContent.checkAnswerTemplates weightlessContent)).
  - reflexivity.
  - reflexivity.
Defined.

(** C9 as worded fails: a single segment of weight 0 has the gcd 0, and
    the evaluation returns its list of entries; [checkAnswer] reports
    that all segments are good. *)
Lemma zero_gcd_raises_no_error :
  StructureStripContent.constructor weightlessParams = Some weightlessContent /\
  StructureStripContent.greatestCommonDivisor weightlessContent = 0%Z /\
  StructureStripContent.buildFeedbackTexts weightlessContent
    (StructureStripContent.checkAnswerTemplates weightlessContent) = [JS.Null] /\
  StructureStripContent.checkAnswer weightlessContent = Some "<p>All good</p>"%string.
Proof.
  repeat split; reflexivity.
Qed.

(* ===================================================================== *)
(** ** More on the greatest common divisor *)
(* ===================================================================== *)

Lemma greatestCommonDivisor_abs (b : Z) :
  forall a, Z.abs (Util.greatestCommonDivisor a b) = Z.gcd a b.
Proof.
  remember (Z.abs_nat b) as n eqn:En. revert b En.
  induction n as [n IH] using lt_wf_ind. intros b En a.
  destruct (Z.eq_dec b 0) as [-> | Hb].
  - rewrite greatestCommonDivisor_zero, Z.gcd_0_r. reflexivity.
  - rewrite greatestCommonDivisor_step by exact Hb.
    rewrite (IH (Z.abs_nat (Z.rem a b))) with (b := Z.rem a b);
      [| pose proof (Z.rem_bound_abs a b Hb); lia | reflexivity].
    pose proof (Z.quot_rem' a b) as Hqr.
    assert (E : Z.rem a b = (a + (- (a ÷ b)) * b)%Z) by lia.
    rewrite E, Z.gcd_add_mult_diag_r. apply Z.gcd_comm.
Qed.

(** X1.  [greatestCommonDivisor] returns the greatest common divisor up
    to sign for all integers, and the greatest common divisor itself
    when neither argument is negative. *)
Theorem greatestCommonDivisor_is_gcd (a b : Z) :
  Z.abs (Util.greatestCommonDivisor a b) = Z.gcd a b /\
  ((0 <= a)%Z -> (0 <= b)%Z -> Util.greatestCommonDivisor a b = Z.gcd a b).
Proof.
  split.
  - apply greatestCommonDivisor_abs.
  - intros Ha Hb. apply greatestCommonDivisor_gcd; assumption.
Qed.

Lemma greatestCommonDivisor_is_gcd_witness :
  Z.abs (Util.greatestCommonDivisor (-12) 18) = Z.gcd (-12) 18 /\
  Util.greatestCommonDivisor 12 18 = Z.gcd 12 18.
Proof.
  split.
  - apply (proj1 (greatestCommonDivisor_is_gcd (-12) 18)).
  - apply (proj2 (greatestCommonDivisor_is_gcd 12 18)); lia.
Defined.

Lemma fold_gcdStep_greatest (numbers : list Z) :
  Forall (fun w => 0 < w)%Z numbers ->
  forall start d, (0 < start)%Z -> (d | start)%Z ->
    Forall (fun w => (d | w)%Z) numbers ->
    (d | fold_left Util.gcdStep numbers start)%Z.
Proof.
  induction 1 as [| w rest Hw Hrest IH]; intros start d Hstart Hd Hall; simpl.
  - exact Hd.
  - inversion Hall as [| ? ? Hdw Hdrest]; subst.
    destruct (gcdStep_positive _ _ Hstart Hw) as [Eg Hg].
    apply IH; [exact Hg | | exact Hdrest].
    rewrite Eg. apply Z.gcd_greatest; assumption.
Qed.

(** X2.  On a non-empty array of positive integers,
    [greatestCommonDivisorArray] returns a positive number that every
    common divisor of the array divides: it is the greatest one. *)
Theorem weightGCD_is_greatest (numbers : list Z) :
  numbers <> [] ->
  Forall (fun w => 0 < w)%Z numbers ->
  exists g,
    Util.greatestCommonDivisorArray numbers = Some g /\ (0 < g)%Z /\
    forall d, Forall (fun w => (d | w)%Z) numbers -> (d | g)%Z.
Proof.
  intros Hne Hall. destruct numbers as [| w rest]; [contradiction |].
  inversion Hall as [| ? ? Hw Hrest]; subst.
  destruct (fold_gcdStep_positive _ Hrest _ Hw) as (Hpos & _ & _).
  exists (fold_left Util.gcdStep rest w). split; [reflexivity |]. split; [exact Hpos |].
  intros d Hd. inversion Hd as [| ? ? Hdw Hdrest]; subst.
  apply fold_gcdStep_greatest; assumption.
Qed.

Lemma weightGCD_is_greatest_witness :
  exists g,
    Util.greatestCommonDivisorArray [12; 18; 30]%Z = Some g /\ (0 < g)%Z /\
    forall d, Forall (fun w => (d | w)%Z) [12; 18; 30]%Z -> (d | g)%Z.
Proof.
  apply (weightGCD_is_greatest [12; 18; 30]%Z).
  - discriminate.
  - repeat constructor.
Defined.

(** X3.  [greatestCommonDivisorArray] fails (the TypeError of reduce)
    on the empty array only, and returns 0 for the array [0] only:
    every other array gets a divisor that is not 0. *)
Theorem weightGCD_edge_cases (numbers : list Z) :
  (Util.greatestCommonDivisorArray numbers = None <-> numbers = []) /\
  (Util.greatestCommonDivisorArray numbers = Some 0%Z <-> numbers = [0%Z]).
Proof.
  split.
  - destruct numbers; simpl; split; intros H; try reflexivity; discriminate H.
  - apply greatestCommonDivisorArray_zero.
Qed.

Lemma fold_gcdStep_from_one (numbers : list Z) :
  Forall (fun w => 0 <= w)%Z numbers -> fold_left Util.gcdStep numbers 1%Z = 1%Z.
Proof.
  induction 1 as [| w rest Hw _ IH]; simpl; [reflexivity |].
  replace (Util.gcdStep 1 w) with 1%Z; [exact IH |].
  unfold Util.gcdStep. simpl.
  rewrite greatestCommonDivisor_gcd by lia. symmetry. apply Z.gcd_1_l.
Qed.

(** X4.  A first number 0 is the falsy accumulator: followed by at
    least one more number, it makes the result 1 whatever the other
    numbers (not negative) have in common. *)
Theorem weightGCD_after_leading_zero (second : Z) (rest : list Z) :
  Forall (fun w => 0 <= w)%Z rest ->
  Util.greatestCommonDivisorArray (0 :: second :: rest)%Z = Some 1%Z.
Proof.
  intros Hrest. unfold Util.greatestCommonDivisorArray. simpl.
  f_equal. change (Util.gcdStep 0 second) with 1%Z.
  apply fold_gcdStep_from_one. exact Hrest.
Qed.

Lemma weightGCD_after_leading_zero_witness :
  Util.greatestCommonDivisorArray (0 :: 4 :: [6; 8])%Z = Some 1%Z.
Proof.
  apply (weightGCD_after_leading_zero 4 [6; 8]%Z). repeat constructor; lia.
Defined.

(* ===================================================================== *)
(** ** Construction *)
(* ===================================================================== *)

(** X5.  The constructor fails, by the TypeError of reduce, exactly on
    an empty segment array; both revisions. *)
Theorem constructor_fails_on_no_segments_only :
  (forall p : StructureStripContent.Params,
     StructureStripContent.constructor p = None <->
     StructureStripContent.p_segments p = []) /\
  (forall p : StructureStripContentMinMax.Params,
     StructureStripContentMinMax.constructor p = None <->
     StructureStripContentMinMax.p_segments p = []).
Proof.
  split; intros p; split.
  - intros H. destruct (StructureStripContent.p_segments p) as [| s0 rest] eqn:E;
      [reflexivity |].
    assert (Hne : StructureStripContent.p_segments p <> []) by (rewrite E; discriminate).
    destruct (ContentFacts.constructor_total p Hne) as (c & Hc). congruence.
  - intros E. unfold StructureStripContent.constructor. rewrite E. reflexivity.
  - intros H. destruct (StructureStripContentMinMax.p_segments p) as [| s0 rest] eqn:E;
      [reflexivity |].
    assert (Hne : StructureStripContentMinMax.p_segments p <> []) by (rewrite E; discriminate).
    destruct (MinMaxFacts.constructor_total_bounds p Hne) as (c & Hc). congruence.
  - intros E. unfold StructureStripContentMinMax.constructor. rewrite E. reflexivity.
Qed.

(* ===================================================================== *)
(** ** What an input changes *)
(* ===================================================================== *)

Lemma nth_map_typeText_other {B : Type} (f : Segment -> B) (segs : list Segment)
    (i j : nat) (txt : string) (d : B) :
  j <> i -> nth j (map f (typeText segs i txt)) d = nth j (map f segs) d.
Proof.
  revert i j. induction segs as [| s rest IH]; intros [| i] [| j] Hne; simpl; auto.
  contradiction.
Qed.

Lemma unclampedReferenceLength_ext (ref ref' : Segment) (g : Z) :
  getWeight ref = getWeight ref' ->
  String.length (getText ref) = String.length (getText ref') ->
  unclampedReferenceLength ref g = unclampedReferenceLength ref' g.
Proof. unfold unclampedReferenceLength. intros -> ->. reflexivity. Qed.

Lemma segmentFeedback_ext (rL rS : JS.number -> JS.number) (tpl : TextTemplates)
    (bM bm : JS.number) (seg seg' : Segment) :
  getTitle seg = getTitle seg' -> getWeight seg = getWeight seg' ->
  String.length (getText seg) = String.length (getText seg') ->
  segmentFeedback rL rS tpl bM bm seg = segmentFeedback rL rS tpl bM bm seg'.
Proof.
  intros Et Ew El. unfold segmentFeedback, normalizedLength, fillTemplate.
  rewrite Et, Ew, El. reflexivity.
Qed.

Lemma map_typeText_ext {B : Type} (f : Segment -> B) (segs : list Segment)
    (i : nat) (txt : string) :
  i < List.length segs ->
  f {| title := title (segmentAt segs i); weight := weight (segmentAt segs i); text := txt |} =
    f (segmentAt segs i) ->
  map f (typeText segs i txt) = map f segs.
Proof.
  unfold segmentAt. revert i.
  induction segs as [| s rest IH]; intros [| i] Hi Hf; simpl in *; try lia.
  - now rewrite Hf.
  - f_equal. apply IH; [lia | exact Hf].
Qed.

(** The segment read at a reference after an input: title and weight
    stay, the length of the text is given. *)
Lemma segmentAt_typeText_cases (segs : list Segment) (i j : nat) (txt : string) :
  i < List.length segs ->
  getTitle (segmentAt (typeText segs i txt) j) = getTitle (segmentAt segs j) /\
  getWeight (segmentAt (typeText segs i txt) j) = getWeight (segmentAt segs j) /\
  String.length (getText (segmentAt (typeText segs i txt) j)) =
    if Nat.eqb j i then String.length txt else String.length (getText (segmentAt segs j)).
Proof.
  intros Hi. destruct (Nat.eqb_spec j i) as [-> | Hne].
  - rewrite typeText_same by exact Hi. auto.
  - rewrite typeText_other by exact Hne. auto.
Qed.

(** X6.  Input in a segment that is not the reference segment leaves
    the band and the entry of every other segment as they were: only
    the segment typed in needs a new status.  Both revisions, every
    content. *)
Theorem input_elsewhere_keeps_other_entries :
  (forall (c : StructureStripContent.t) (i j : nat) (txt : string)
          (tpl : TextTemplates) (d : JS.value),
     i <> StructureStripContent.mostImportantSegment c -> j <> i ->
     StructureStripContent.normalizedLengthMax (StructureStripContent.input c i txt) =
       StructureStripContent.normalizedLengthMax c /\
     StructureStripContent.normalizedLengthMin (StructureStripContent.input c i txt) =
       StructureStripContent.normalizedLengthMin c /\
     nth j (StructureStripContent.buildFeedbackTexts
              (StructureStripContent.input c i txt) tpl) d =
       nth j (StructureStripContent.buildFeedbackTexts c tpl) d) /\
  (forall (c : StructureStripContentMinMax.t) (i j : nat) (txt : string)
          (tpl : TextTemplates) (d : JS.value),
     i <> StructureStripContentMinMax.mostImportantSegment c -> j <> i ->
     StructureStripContentMinMax.normalizedLengthMax
       (StructureStripContentMinMax.input c i txt) =
       StructureStripContentMinMax.normalizedLengthMax c /\
     StructureStripContentMinMax.normalizedLengthMin
       (StructureStripContentMinMax.input c i txt) =
       StructureStripContentMinMax.normalizedLengthMin c /\
     nth j (StructureStripContentMinMax.buildFeedbackTexts
              (StructureStripContentMinMax.input c i txt) tpl) d =
       nth j (StructureStripContentMinMax.buildFeedbackTexts c tpl) d).
Proof.
  split; intros c i j txt tpl d Hi Hj.
  - assert (Eref : StructureStripContent.reference (StructureStripContent.input c i txt) =
                   StructureStripContent.reference c).
    { unfold StructureStripContent.reference. simpl. apply typeText_other. auto. }
    assert (EM : StructureStripContent.normalizedLengthMax
                   (StructureStripContent.input c i txt) =
                 StructureStripContent.normalizedLengthMax c).
    { unfold StructureStripContent.normalizedLengthMax,
        StructureStripContent.normalizedReferenceLength,
        StructureStripContent.referenceLength.
      rewrite Eref. reflexivity. }
    assert (Em : StructureStripContent.normalizedLengthMin
                   (StructureStripContent.input c i txt) =
                 StructureStripContent.normalizedLengthMin c).
    { unfold StructureStripContent.normalizedLengthMin,
        StructureStripContent.normalizedReferenceLength,
        StructureStripContent.referenceLength.
      rewrite Eref. reflexivity. }
    repeat split; try assumption.
    unfold StructureStripContent.buildFeedbackTexts. rewrite EM, Em. simpl.
    apply nth_map_typeText_other. exact Hj.
  - assert (Eref : StructureStripContentMinMax.reference
                     (StructureStripContentMinMax.input c i txt) =
                   StructureStripContentMinMax.reference c).
    { unfold StructureStripContentMinMax.reference. simpl. apply typeText_other. auto. }
    assert (Ers : StructureStripContentMinMax.referenceLengthAndSlack
                    (StructureStripContentMinMax.input c i txt) =
                  StructureStripContentMinMax.referenceLengthAndSlack c).
    { unfold StructureStripContentMinMax.referenceLengthAndSlack,
        StructureStripContentMinMax.initialReferenceLength.
      rewrite Eref. reflexivity. }
    assert (EM : StructureStripContentMinMax.normalizedLengthMax
                   (StructureStripContentMinMax.input c i txt) =
                 StructureStripContentMinMax.normalizedLengthMax c).
    { unfold StructureStripContentMinMax.normalizedLengthMax,
        StructureStripContentMinMax.normalizedReferenceLength,
        StructureStripContentMinMax.referenceLength,
        StructureStripContentMinMax.slackPercentage.
      rewrite Eref, Ers. reflexivity. }
    assert (Em : StructureStripContentMinMax.normalizedLengthMin
                   (StructureStripContentMinMax.input c i txt) =
                 StructureStripContentMinMax.normalizedLengthMin c).
    { unfold StructureStripContentMinMax.normalizedLengthMin,
        StructureStripContentMinMax.normalizedReferenceLength,
        StructureStripContentMinMax.referenceLength,
        StructureStripContentMinMax.slackPercentage.
      rewrite Eref, Ers. reflexivity. }
    repeat split; try assumption.
    unfold StructureStripContentMinMax.buildFeedbackTexts. rewrite EM, Em. simpl.
    apply nth_map_typeText_other. exact Hj.
Qed.

Lemma input_elsewhere_keeps_other_entries_witness :
  nth 1 (StructureStripContent.buildFeedbackTexts
           (StructureStripContent.input introBodyContent 0 "Hello") 
           (StructureStripContent.checkAnswerTemplates introBodyContent)) JS.Undefined =
  nth 1 (StructureStripContent.buildFeedbackTexts introBodyContent
           (StructureStripContent.checkAnswerTemplates introBodyContent)) JS.Undefined.
Proof.
  apply (proj1 input_elsewhere_keeps_other_entries introBodyContent 0 1 "Hello"%string
               (StructureStripContent.checkAnswerTemplates introBodyContent) JS.Undefined).
  - discriminate.
  - discriminate.
Defined.

(** X7.  The evaluation reads a text through its length only: a text
    replaced by another of the same length gives the same entries.
    Both revisions, every content. *)
Theorem entries_depend_on_text_lengths_only :
  (forall (c : StructureStripContent.t) (i : nat) (txt : string) (tpl : TextTemplates),
     i < List.length (StructureStripContent.segments c) ->
     String.length txt = textLength (segmentAt (StructureStripContent.segments c) i) ->
     StructureStripContent.buildFeedbackTexts (StructureStripContent.input c i txt) tpl =
     StructureStripContent.buildFeedbackTexts c tpl) /\
  (forall (c : StructureStripContentMinMax.t) (i : nat) (txt : string) (tpl : TextTemplates),
     i < List.length (StructureStripContentMinMax.segments c) ->
     String.length txt = textLength (segmentAt (StructureStripContentMinMax.segments c) i) ->
     StructureStripContentMinMax.buildFeedbackTexts
       (StructureStripContentMinMax.input c i txt) tpl =
     StructureStripContentMinMax.buildFeedbackTexts c tpl).
Proof.
  split; intros c i txt tpl Hi Hlen.
  - destruct (segmentAt_typeText_cases (StructureStripContent.segments c) i
                (StructureStripContent.mostImportantSegment c) txt Hi) as (_ & Ew & El).
    assert (El' : String.length (getText (StructureStripContent.reference
                                            (StructureStripContent.input c i txt))) =
                  String.length (getText (StructureStripContent.reference c))).
    { unfold StructureStripContent.reference. simpl. rewrite El.
      destruct (Nat.eqb_spec (StructureStripContent.mostImportantSegment c) i) as [-> | _];
        [exact Hlen | reflexivity]. }
    assert (ER : StructureStripContent.referenceLength (StructureStripContent.input c i txt) =
                 StructureStripContent.referenceLength c).
    { unfold StructureStripContent.referenceLength.
      apply unclampedReferenceLength_ext; [exact Ew | exact El']. }
    unfold StructureStripContent.buildFeedbackTexts,
      StructureStripContent.normalizedLengthMax, StructureStripContent.normalizedLengthMin,
      StructureStripContent.normalizedReferenceLength.
    rewrite ER.
    change (getWeight (StructureStripContent.reference (StructureStripContent.input c i txt)))
      with (getWeight (segmentAt (typeText (StructureStripContent.segments c) i txt)
                         (StructureStripContent.mostImportantSegment c))).
    rewrite Ew. fold (StructureStripContent.reference c).
    apply map_typeText_ext; [exact Hi |].
    apply segmentFeedback_ext; auto.
  - destruct (segmentAt_typeText_cases (StructureStripContentMinMax.segments c) i
                (StructureStripContentMinMax.mostImportantSegment c) txt Hi) as (_ & Ew & El).
    assert (El' : String.length (getText (StructureStripContentMinMax.reference
                                            (StructureStripContentMinMax.input c i txt))) =
                  String.length (getText (StructureStripContentMinMax.reference c))).
    { unfold StructureStripContentMinMax.reference. simpl. rewrite El.
      destruct (Nat.eqb_spec (StructureStripContentMinMax.mostImportantSegment c) i)
        as [-> | _]; [exact Hlen | reflexivity]. }
    assert (ER : StructureStripContentMinMax.referenceLengthAndSlack
                   (StructureStripContentMinMax.input c i txt) =
                 StructureStripContentMinMax.referenceLengthAndSlack c).
    { unfold StructureStripContentMinMax.referenceLengthAndSlack,
        StructureStripContentMinMax.initialReferenceLength.
      rewrite (unclampedReferenceLength_ext _ (StructureStripContentMinMax.reference c) _
                 Ew El').
      reflexivity. }
    unfold StructureStripContentMinMax.buildFeedbackTexts,
      StructureStripContentMinMax.normalizedLengthMax,
      StructureStripContentMinMax.normalizedLengthMin,
      StructureStripContentMinMax.normalizedReferenceLength,
      StructureStripContentMinMax.referenceLength,
      StructureStripContentMinMax.slackPercentage.
    rewrite ER.
    change (getWeight (StructureStripContentMinMax.reference
                         (StructureStripContentMinMax.input c i txt)))
      with (getWeight (segmentAt (typeText (StructureStripContentMinMax.segments c) i txt)
                         (StructureStripContentMinMax.mostImportantSegment c))).
    rewrite Ew. fold (StructureStripContentMinMax.reference c).
    apply map_typeText_ext; [exact Hi |].
    apply segmentFeedback_ext; auto.
Qed.

Lemma entries_depend_on_text_lengths_only_witness :
  StructureStripContent.buildFeedbackTexts
    (StructureStripContent.input introBodyContent 0 "Yo")
    (StructureStripContent.checkAnswerTemplates introBodyContent) =
  StructureStripContent.buildFeedbackTexts introBodyContent
    (StructureStripContent.checkAnswerTemplates introBodyContent).
Proof.
  apply (proj1 entries_depend_on_text_lengths_only introBodyContent 0 "Yo"%string
               (StructureStripContent.checkAnswerTemplates introBodyContent)).
  - vm_compute. lia.
  - reflexivity.
Defined.

(* ===================================================================== *)
(** ** More on the evaluation without length bounds *)
(* ===================================================================== *)

(** X8.  Without length bounds, on positive weights and a finite slack,
    a segment found too short always gets a message, and the gap in it
    is at least 1: the ceiling never reports 0 characters to add. *)
Theorem too_short_reports_at_least_one
    (p : StructureStripContent.Params) (c : StructureStripContent.t)
    (s : Q) (i : nat) (gap : JS.number) (tpl : TextTemplates) :
  StructureStripContent.constructor p = Some c ->
  positiveWeights (StructureStripContent.p_segments p) ->
  StructureStripContent.p_slack p = JS.Fin s ->
  i < List.length (StructureStripContent.segments c) ->
  StructureStripContent.findingAt c i = TooShort gap ->
  (exists z, (1 <= z)%Z /\ gap = JS.ofZ z) /\
  nth i (StructureStripContent.buildFeedbackTexts c tpl) JS.Undefined =
    JS.Str (fillTemplate (tpl_tooShort tpl)
              (segmentAt (StructureStripContent.segments c) i) gap).
Proof.
  intros Hc Hpos Hs Hi Hf.
  pose proof (ContentFacts.constructor_wellFormed _ _ Hc Hpos) as Hwf.
  destruct (ContentFacts.constructor_inv _ _ Hc) as (Ep & _).
  rewrite <- Ep in Hs.
  destruct (ContentFacts.band_finite _ _ Hwf Hs)
    as (R & _ & _ & _ & _ & _ & _ & _ & EM & Em).
  cbv zeta in *.
  pose proof (positiveWeights_at _ _ (StructureStripContent.wf_positive _ Hwf) Hi) as Hwi.
  split.
  - unfold StructureStripContent.findingAt in Hf. rewrite EM, Em in Hf.
    match type of Hf with
    | finding _ _ (JS.Fin ?bM) (JS.Fin ?bm) ?seg = _ =>
        pose proof (gap_finite_band JS.floor JS.ceil bM bm seg Hwi) as Hgap
    end.
    rewrite Hf in Hgap. destruct Hgap as (y & Hy & Egap & _).
    exists (Qceiling y). split; [apply ceiling_positive; exact Hy | exact Egap].
  - rewrite (ContentFacts.buildFeedbackTexts_nth _ _ _ _ Hi), Hf. reflexivity.
Qed.

Lemma too_short_reports_at_least_one_witness :
  (exists z, (1 <= z)%Z /\ JS.Fin 3 = JS.ofZ z) /\
  nth 1 (StructureStripContent.buildFeedbackTexts introBodyContent
           (StructureStripContent.checkAnswerTemplates introBodyContent)) JS.Undefined =
    JS.Str (fillTemplate
              (tpl_tooShort (StructureStripContent.checkAnswerTemplates introBodyContent))
              (segmentAt (StructureStripContent.segments introBodyContent) 1) (JS.Fin 3)).
Proof.
  apply (@too_short_reports_at_least_one (introBodyParams onRequest) introBodyContent
           10%Q 1 (JS.Fin 3) (StructureStripContent.checkAnswerTemplates introBodyContent)).
  - reflexivity.
  - repeat constructor.
  - reflexivity.
  - vm_compute. lia.
  - reflexivity.
Defined.

(** X9.  Without length bounds, on positive weights and a slack of at
    least 0: once the text of the reference segment has at least
    weight / gcd characters, the band follows it and the reference
    segment is alright. *)
Theorem reference_alright_once_long_enough
    (p : StructureStripContent.Params) (c : StructureStripContent.t) (s : Q) :
  StructureStripContent.constructor p = Some c ->
  positiveWeights (StructureStripContent.p_segments p) ->
  StructureStripContent.p_slack p = JS.Fin s ->
  (0 <= s)%Q ->
  (getWeight (StructureStripContent.reference c) <=
   Z.of_nat (textLength (StructureStripContent.reference c)) *
   StructureStripContent.greatestCommonDivisor c)%Z ->
  StructureStripContent.findingAt c (StructureStripContent.mostImportantSegment c) = Alright.
Proof.
  intros Hc Hpos Hs Hs0 Hlong.
  pose proof (ContentFacts.constructor_wellFormed _ _ Hc Hpos) as Hwf.
  destruct (ContentFacts.constructor_inv _ _ Hc) as (Ep & _).
  rewrite <- Ep in Hs.
  pose proof (ContentFacts.wellFormed_reference_weight _ Hwf) as Hw.
  pose proof (StructureStripContent.wf_gcd_positive _ Hwf) as Hg.
  destruct (ContentFacts.band_finite _ _ Hwf Hs)
    as (R & _ & _ & HL & Hu & Hu0 & Hcase & _ & EM & Em).
  cbv zeta in *.
  unfold StructureStripContent.findingAt. fold (StructureStripContent.reference c).
  rewrite EM, Em, (finding_finite_band _ _ _ _ _ Hw).
  unfold Spec.normalizedLength.
  set (w := inject_Z (getWeight (StructureStripContent.reference c))) in *.
  set (g := inject_Z (StructureStripContent.greatestCommonDivisor c)) in *.
  set (L := inject_Z (Z.of_nat (textLength (StructureStripContent.reference c)))) in *.
  assert (Hwq : (0 < w)%Q) by (apply inject_Z_pos; exact Hw).
  assert (Hgq : (0 < g)%Q) by (apply inject_Z_pos; exact Hg).
  assert (Hiw : (0 < / w)%Q) by (apply Qinv_lt_0_compat; exact Hwq).
  assert (HuL : (w / g <= L)%Q).
  { apply Qle_shift_div_r; [exact Hgq |]. unfold w, L, g.
    rewrite <- inject_Z_mult, <- Zle_Qle. exact Hlong. }
  assert (ER : (R == L)%Q) by (destruct Hcase as [E | E]; lra).
  assert (Hk : (0 <= s / 100)%Q).
  { unfold Qdiv. apply Qmult_le_0_compat; [exact Hs0 | discriminate]. }
  assert (HLw : (0 < L / w)%Q).
  { unfold Qdiv. apply Qmult_lt_0_compat; [lra | exact Hiw]. }
  assert (ERw : (R / w == L / w)%Q) by (rewrite ER; reflexivity).
  destruct (JS.Qltb (R / w * (1 + s / 100)) (L / w)) eqn:E1.
  { apply Qltb_true in E1. exfalso. nra. }
  destruct (JS.Qltb (L / w) (R / w * (1 - s / 100))) eqn:E2.
  { apply Qltb_true in E2. exfalso. nra. }
  reflexivity.
Qed.

Lemma reference_alright_once_long_enough_witness :
  StructureStripContent.findingAt (contentWith "Hi" "Body")
    (StructureStripContent.mostImportantSegment (contentWith "Hi" "Body")) = Alright.
Proof.
  apply (@reference_alright_once_long_enough (paramsWith "Hi" "Body")
           (contentWith "Hi" "Body") 10%Q).
  - reflexivity.
  - repeat constructor.
  - reflexivity.
  - unfold Qle. simpl. lia.
  - vm_compute. discriminate.
Defined.

(** X10.  Without length bounds, on positive weights and a slack from 0
    to below 100: while every text is empty, every segment is found too
    short, the reference segment included. *)
Theorem empty_texts_are_all_too_short
    (p : StructureStripContent.Params) (c : StructureStripContent.t) (s : Q) (i : nat) :
  StructureStripContent.constructor p = Some c ->
  positiveWeights (StructureStripContent.p_segments p) ->
  StructureStripContent.p_slack p = JS.Fin s ->
  (0 <= s)%Q -> (s < 100)%Q ->
  (forall j, j < List.length (StructureStripContent.segments c) ->
             textLength (segmentAt (StructureStripContent.segments c) j) = 0) ->
  i < List.length (StructureStripContent.segments c) ->
  verdictOf (StructureStripContent.findingAt c i) = tooShort.
Proof.
  intros Hc Hpos Hs Hs0 Hs1 Hempty Hi.
  pose proof (ContentFacts.constructor_wellFormed _ _ Hc Hpos) as Hwf.
  destruct (ContentFacts.constructor_inv _ _ Hc) as (Ep & _).
  rewrite <- Ep in Hs.
  pose proof (ContentFacts.wellFormed_reference_weight _ Hwf) as Hw.
  destruct (ContentFacts.band_finite _ _ Hwf Hs)
    as (R & _ & _ & HL & Hu & Hu0 & _ & _ & EM & Em).
  cbv zeta in *.
  pose proof (positiveWeights_at _ _ (StructureStripContent.wf_positive _ Hwf) Hi) as Hwi.
  unfold StructureStripContent.findingAt.
  rewrite EM, Em, (verdictOf_finite_band _ _ _ _ _ Hwi).
  unfold Spec.normalizedLength. rewrite (Hempty i Hi).
  set (w := inject_Z (getWeight (StructureStripContent.reference c))) in *.
  assert (Hwq : (0 < w)%Q) by (apply inject_Z_pos; exact Hw).
  assert (Hiw : (0 < / w)%Q) by (apply Qinv_lt_0_compat; exact Hwq).
  assert (HR : (0 < R)%Q) by (apply (Qlt_le_trans _ _ _ Hu0 Hu)).
  assert (HRw : (0 < R / w)%Q) by (unfold Qdiv; apply Qmult_lt_0_compat; assumption).
  assert (Hk0 : (0 <= s / 100)%Q).
  { unfold Qdiv. apply Qmult_le_0_compat; [exact Hs0 | discriminate]. }
  assert (Hk1 : (s / 100 < 1)%Q).
  { apply Qlt_shift_div_r; [reflexivity | lra]. }
  assert (E0 : (inject_Z (Z.of_nat 0) / inject_Z (getWeight
                 (segmentAt (StructureStripContent.segments c) i)) == 0)%Q).
  { unfold Qdiv. simpl. apply Qmult_0_l. }
  unfold verdictQ.
  destruct (JS.Qltb (R / w * (1 + s / 100)) _) eqn:E1.
  { apply Qltb_true in E1. rewrite E0 in E1. exfalso. nra. }
  destruct (JS.Qltb _ (R / w * (1 - s / 100))) eqn:E2; [reflexivity |].
  apply Qltb_false in E2. rewrite E0 in E2. exfalso. nra.
Qed.

Lemma empty_texts_are_all_too_short_witness :
  verdictOf (StructureStripContent.findingAt (contentWith "" "") 1) = tooShort.
Proof.
  apply (@empty_texts_are_all_too_short (paramsWith "" "") (contentWith "" "") 10%Q 1).
  - reflexivity.
  - repeat constructor.
  - reflexivity.
  - unfold Qle. simpl. lia.
  - reflexivity.
  - intros [| [| j]] Hj; [reflexivity | reflexivity |]. simpl in Hj. lia.
  - simpl. lia.
Defined.

(* ===================================================================== *)
(** ** More on the evaluation with length bounds *)
(* ===================================================================== *)

(** X11.  With length bounds, on positive weights, the constructor
    leaves: a share of the reference segment, its weight over the total
    weight, in (0, 1]; a [textLengthMax] that is the configured one or
    Infinity; and a share of [textLengthMax] that is not below
    [textLengthMin]. *)
Theorem constructor_keeps_maximum_above_minimum
    (p : StructureStripContentMinMax.Params) (c : StructureStripContentMinMax.t) :
  StructureStripContentMinMax.constructor p = Some c ->
  positiveWeights (StructureStripContentMinMax.p_segments p) ->
  (exists q,
     StructureStripContentMinMax.mostImportantSegmentPercentage c = JS.Fin q /\
     (0 < q)%Q /\ (q <= 1)%Q) /\
  (StructureStripContentMinMax.p_textLengthMax (StructureStripContentMinMax.params c) =
     StructureStripContentMinMax.p_textLengthMax p \/
   StructureStripContentMinMax.p_textLengthMax (StructureStripContentMinMax.params c) =
     JS.PInf) /\
  JS.ltb (StructureStripContentMinMax.upperBound c)
         (StructureStripContentMinMax.p_textLengthMin (StructureStripContentMinMax.params c)) =
    false.
Proof.
  intros Hc Hpos.
  pose proof (MinMaxFacts.constructor_wellFormed_bounds _ _ Hc Hpos) as Hwf.
  destruct (MinMaxFacts.constructor_inv_bounds _ _ Hc) as (Es & _ & Emin & _ & _ & Epct & Emax).
  rewrite <- Es in Hpos.
  destruct (MinMaxFacts.percentage_positive _ _ Hpos
              (proj1 (StructureStripContentMinMax.wf_reference _ Hwf)))
    as (q & Eq & Hq0 & Hq1).
  fold (StructureStripContentMinMax.reference c) in Eq. rewrite <- Epct in Eq.
  split; [exists q; auto |].
  unfold StructureStripContentMinMax.upperBound. rewrite Emax, Emin.
  destruct (JS.ltb (JS.mul (StructureStripContentMinMax.p_textLengthMax p)
                           (StructureStripContentMinMax.mostImportantSegmentPercentage c))
                   (StructureStripContentMinMax.p_textLengthMin p)) eqn:E.
  - split; [right; reflexivity |].
    rewrite Eq. simpl. rewrite (MinMaxFacts.Qcompare_pos _ Hq0). simpl.
    destruct (StructureStripContentMinMax.p_textLengthMin p); reflexivity.
  - split; [left; reflexivity | exact E].
Qed.

Lemma constructor_keeps_maximum_above_minimum_witness :
  (exists q,
     StructureStripContentMinMax.mostImportantSegmentPercentage
       (introBodyContentBounded (JS.Fin 100) (JS.Fin 120)) = JS.Fin q /\
     (0 < q)%Q /\ (q <= 1)%Q) /\
  (StructureStripContentMinMax.p_textLengthMax
     (StructureStripContentMinMax.params (introBodyContentBounded (JS.Fin 100) (JS.Fin 120))) =
     StructureStripContentMinMax.p_textLengthMax (introBodyBounded (JS.Fin 100) (JS.Fin 120)) \/
   StructureStripContentMinMax.p_textLengthMax
     (StructureStripContentMinMax.params (introBodyContentBounded (JS.Fin 100) (JS.Fin 120))) =
     JS.PInf) /\
  JS.ltb (StructureStripContentMinMax.upperBound
            (introBodyContentBounded (JS.Fin 100) (JS.Fin 120)))
         (StructureStripContentMinMax.p_textLengthMin
            (StructureStripContentMinMax.params
               (introBodyContentBounded (JS.Fin 100) (JS.Fin 120)))) = false.
Proof.
  apply (constructor_keeps_maximum_above_minimum
           (introBodyBounded (JS.Fin 100) (JS.Fin 120))
           (introBodyContentBounded (JS.Fin 100) (JS.Fin 120))).
  - reflexivity.
  - repeat constructor.
Defined.




(* ===================================================================== *)
(** ** The two revisions compared *)
(* ===================================================================== *)

Lemma verdictOf_rounding (rL rS rL' rS' : JS.number -> JS.number) (bM bm : JS.number)
    (seg : Segment) :
  verdictOf (finding rL rS bM bm seg) = verdictOf (finding rL' rS' bM bm seg).
Proof.
  unfold finding.
  destruct (JS.gtb (normalizedLength seg) bM); [reflexivity |].
  destruct (JS.ltb (normalizedLength seg) bm); reflexivity.
Qed.

(** Contents of the two revisions built from the same segments and
    slack, no length bound being set: the same reference, gcd and
    band. *)
Lemma same_band_without_bounds
    (pA : StructureStripContent.Params) (cA : StructureStripContent.t)
    (pB : StructureStripContentMinMax.Params) (cB : StructureStripContentMinMax.t) :
  StructureStripContent.constructor pA = Some cA ->
  StructureStripContentMinMax.constructor pB = Some cB ->
  StructureStripContentMinMax.p_segments pB = StructureStripContent.p_segments pA ->
  StructureStripContentMinMax.p_slack pB = StructureStripContent.p_slack pA ->
  StructureStripContentMinMax.p_textLengthMin pB = JS.NaN ->
  StructureStripContentMinMax.p_textLengthMax pB = JS.NaN ->
  StructureStripContentMinMax.segments cB = StructureStripContent.segments cA /\
  StructureStripContentMinMax.normalizedLengthMax cB =
    StructureStripContent.normalizedLengthMax cA /\
  StructureStripContentMinMax.normalizedLengthMin cB =
    StructureStripContent.normalizedLengthMin cA.
Proof.
  intros HA HB Esegs Eslack Emin Emax.
  destruct (ContentFacts.constructor_inv _ _ HA) as (EpA & EsA & ErA & EgA).
  destruct (MinMaxFacts.constructor_inv_bounds _ _ HB)
    as (EsB & EslB & EminB & ErB & EgB & _ & EmaxB).
  assert (Es : StructureStripContentMinMax.segments cB = StructureStripContent.segments cA)
    by congruence.
  assert (Er : StructureStripContentMinMax.mostImportantSegment cB =
               StructureStripContent.mostImportantSegment cA).
  { rewrite Es in ErB. rewrite ErA in ErB. now inversion ErB. }
  assert (Eg : StructureStripContentMinMax.greatestCommonDivisor cB =
               StructureStripContent.greatestCommonDivisor cA).
  { rewrite Es in EgB. rewrite EgA in EgB. now inversion EgB. }
  assert (Eref : StructureStripContentMinMax.reference cB = StructureStripContent.reference cA).
  { unfold StructureStripContentMinMax.reference, StructureStripContent.reference.
    rewrite Es, Er. reflexivity. }
  assert (Ers : StructureStripContentMinMax.referenceLengthAndSlack cB =
                (StructureStripContent.referenceLength cA,
                 StructureStripContent.slackPercentage cA)).
  { unfold StructureStripContentMinMax.referenceLengthAndSlack,
      StructureStripContentMinMax.clampAbove, StructureStripContentMinMax.clampBelow,
      StructureStripContentMinMax.lowerBound, StructureStripContentMinMax.upperBound,
      StructureStripContentMinMax.initialReferenceLength,
      StructureStripContent.referenceLength, StructureStripContent.slackPercentage,
      JS.gtb.
    rewrite EmaxB, EminB, Emin, Emax, Eref, Eg, EslB, Eslack, EpA.
    cbn [JS.mul JS.ltb fst snd]. rewrite ltb_NaN_r. reflexivity. }
  split; [exact Es |]. split.
  - unfold StructureStripContentMinMax.normalizedLengthMax,
      StructureStripContentMinMax.normalizedReferenceLength,
      StructureStripContentMinMax.referenceLength,
      StructureStripContentMinMax.slackPercentage.
    rewrite Ers, Eref. reflexivity.
  - unfold StructureStripContentMinMax.normalizedLengthMin,
      StructureStripContentMinMax.normalizedReferenceLength,
      StructureStripContentMinMax.referenceLength,
      StructureStripContentMinMax.slackPercentage.
    rewrite Ers, Eref. reflexivity.
Qed.

(** X13.  The length bounds are optional: with neither of them set, the
    revision with bounds has, for every segment array and slack, the
    band of the revision without, and takes the same branch (too short,
    alright, too long) for every segment. *)
Theorem unset_bounds_give_the_same_verdicts
    (pA : StructureStripContent.Params) (cA : StructureStripContent.t)
    (pB : StructureStripContentMinMax.Params) (cB : StructureStripContentMinMax.t)
    (i : nat) :
  StructureStripContent.constructor pA = Some cA ->
  StructureStripContentMinMax.constructor pB = Some cB ->
  StructureStripContentMinMax.p_segments pB = StructureStripContent.p_segments pA ->
  StructureStripContentMinMax.p_slack pB = StructureStripContent.p_slack pA ->
  StructureStripContentMinMax.p_textLengthMin pB = JS.NaN ->
  StructureStripContentMinMax.p_textLengthMax pB = JS.NaN ->
  StructureStripContentMinMax.normalizedLengthMax cB =
    StructureStripContent.normalizedLengthMax cA /\
  StructureStripContentMinMax.normalizedLengthMin cB =
    StructureStripContent.normalizedLengthMin cA /\
  verdictOf (StructureStripContentMinMax.findingAt cB i) =
    verdictOf (StructureStripContent.findingAt cA i).
Proof.
  intros HA HB Esegs Eslack Emin Emax.
  destruct (same_band_without_bounds pA cA pB cB HA HB Esegs Eslack Emin Emax)
    as (Es & EM & Em).
  split; [exact EM |]. split; [exact Em |].
  unfold StructureStripContentMinMax.findingAt, StructureStripContent.findingAt.
  rewrite EM, Em, Es. apply verdictOf_rounding.
Qed.

Lemma unset_bounds_give_the_same_verdicts_witness :
  StructureStripContentMinMax.normalizedLengthMax (introBodyContentBounded JS.NaN JS.NaN) =
    StructureStripContent.normalizedLengthMax introBodyContent /\
  StructureStripContentMinMax.normalizedLengthMin (introBodyContentBounded JS.NaN JS.NaN) =
    StructureStripContent.normalizedLengthMin introBodyContent /\
  verdictOf (StructureStripContentMinMax.findingAt (introBodyContentBounded JS.NaN JS.NaN) 0) =
    verdictOf (StructureStripContent.findingAt introBodyContent 0).
Proof.
  apply (@unset_bounds_give_the_same_verdicts (introBodyParams onRequest) introBodyContent
           (introBodyBounded JS.NaN JS.NaN) (introBodyContentBounded JS.NaN JS.NaN) 0);
    reflexivity.
Defined.

Lemma round_between_floor (x : Q) :
  (Qfloor x <= Qfloor (x + (1 # 2)) <= Qfloor x + 1)%Z.
Proof.
  split.
  - apply Qfloor_resp_le. lra.
  - pose proof (Qfloor_le (x + (1 # 2))) as H1.
    pose proof (Qlt_floor x) as H2.
    destruct (Z_le_gt_dec (Qfloor (x + (1 # 2))) (Qfloor x + 1)) as [Hle | Hgt];
      [exact Hle | exfalso].
    assert (Hz : (Qfloor x + 2 <= Qfloor (x + (1 # 2)))%Z) by lia.
    rewrite Zle_Qle, inject_Z_plus in Hz. rewrite inject_Z_plus in H2.
    change (inject_Z 2) with 2%Q in Hz. change (inject_Z 1) with 1%Q in H2. lra.
Qed.

Lemma round_between_ceiling (y : Q) :
  (Qfloor (y + (1 # 2)) <= Qceiling y <= Qfloor (y + (1 # 2)) + 1)%Z.
Proof.
  pose proof (Qfloor_le (y + (1 # 2))) as H1.
  pose proof (Qlt_floor (y + (1 # 2))) as H2.
  pose proof (Qle_ceiling y) as H3.
  pose proof (Qceiling_lt y) as H4.
  rewrite inject_Z_plus in H2. change (inject_Z 1) with 1%Q in H2.
  unfold Z.sub in H4. rewrite inject_Z_plus, inject_Z_opp in H4.
  change (inject_Z 1) with 1%Q in H4.
  split.
  - destruct (Z_le_gt_dec (Qfloor (y + (1 # 2))) (Qceiling y)) as [Hle | Hgt];
      [exact Hle | exfalso].
    assert (Hz : (Qceiling y + 1 <= Qfloor (y + (1 # 2)))%Z) by lia.
    rewrite Zle_Qle, inject_Z_plus in Hz. change (inject_Z 1) with 1%Q in Hz. lra.
  - destruct (Z_le_gt_dec (Qceiling y) (Qfloor (y + (1 # 2)) + 1)) as [Hle | Hgt];
      [exact Hle | exfalso].
    assert (Hz : (Qfloor (y + (1 # 2)) + 2 <= Qceiling y)%Z) by lia.
    rewrite Zle_Qle, inject_Z_plus in Hz. change (inject_Z 2) with 2%Q in Hz. lra.
Qed.

(** X14.  With no length bound set, positive weights and a finite slack,
    the gaps of the two revisions differ by at most one character: the
    nearest integer is the floor or one more for a segment found too
    long, and the ceiling or one less for a segment found too short. *)
Theorem gaps_of_the_revisions_differ_by_at_most_one
    (pA : StructureStripContent.Params) (cA : StructureStripContent.t)
    (pB : StructureStripContentMinMax.Params) (cB : StructureStripContentMinMax.t)
    (s : Q) (i : nat) :
  StructureStripContent.constructor pA = Some cA ->
  StructureStripContentMinMax.constructor pB = Some cB ->
  StructureStripContentMinMax.p_segments pB = StructureStripContent.p_segments pA ->
  StructureStripContentMinMax.p_slack pB = StructureStripContent.p_slack pA ->
  StructureStripContentMinMax.p_textLengthMin pB = JS.NaN ->
  StructureStripContentMinMax.p_textLengthMax pB = JS.NaN ->
  positiveWeights (StructureStripContent.p_segments pA) ->
  StructureStripContent.p_slack pA = JS.Fin s ->
  i < List.length (StructureStripContent.segments cA) ->
  match StructureStripContent.findingAt cA i, StructureStripContentMinMax.findingAt cB i with
  | TooLong gapA, TooLong gapB =>
      exists a b, gapA = JS.ofZ a /\ gapB = JS.ofZ b /\ (a <= b <= a + 1)%Z
  | TooShort gapA, TooShort gapB =>
      exists a b, gapA = JS.ofZ a /\ gapB = JS.ofZ b /\ (b <= a <= b + 1)%Z
  | Alright, Alright => True
  | _, _ => False
  end.
Proof.
  intros HA HB Esegs Eslack Emin Emax Hpos Hs Hi.
  destruct (same_band_without_bounds pA cA pB cB HA HB Esegs Eslack Emin Emax)
    as (Es & EM & Em).
  pose proof (ContentFacts.constructor_wellFormed _ _ HA Hpos) as Hwf.
  destruct (ContentFacts.constructor_inv _ _ HA) as (Ep & _).
  rewrite <- Ep in Hs.
  destruct (ContentFacts.band_finite _ _ Hwf Hs)
    as (R & _ & _ & _ & _ & _ & _ & _ & EMA & EmA).
  cbv zeta in *.
  pose proof (positiveWeights_at _ _ (StructureStripContent.wf_positive _ Hwf) Hi) as Hwi.
  unfold StructureStripContentMinMax.findingAt, StructureStripContent.findingAt.
  rewrite EM, Em, Es, EMA, EmA.
  rewrite !(finding_finite_band _ _ _ _ _ Hwi).
  destruct (JS.Qltb _ _).
  - eexists _, _. split; [reflexivity |]. split; [reflexivity |].
    apply round_between_floor.
  - destruct (JS.Qltb _ _); [| exact I].
    eexists _, _. split; [reflexivity |]. split; [reflexivity |].
    apply round_between_ceiling.
Qed.

Lemma gaps_of_the_revisions_differ_by_at_most_one_witness :
  match StructureStripContent.findingAt introBodyContent 0,
        StructureStripContentMinMax.findingAt (introBodyContentBounded JS.NaN JS.NaN) 0 with
  | TooLong gapA, TooLong gapB =>
      exists a b, gapA = JS.ofZ a /\ gapB = JS.ofZ b /\ (a <= b <= a + 1)%Z
  | TooShort gapA, TooShort gapB =>
      exists a b, gapA = JS.ofZ a /\ gapB = JS.ofZ b /\ (b <= a <= b + 1)%Z
  | Alright, Alright => True
  | _, _ => False
  end.
Proof.
  apply (@gaps_of_the_revisions_differ_by_at_most_one
           (introBodyParams onRequest) introBodyContent
           (introBodyBounded JS.NaN JS.NaN) (introBodyContentBounded JS.NaN JS.NaN) 10%Q 0);
    try reflexivity.
  - repeat constructor.
  - vm_compute. lia.
Defined.

(* ===================================================================== *)
(** ** Reports and statuses *)
(* ===================================================================== *)

Lemma append_assoc (a b c : string) : ((a ++ b) ++ c = a ++ (b ++ c))%string.
Proof. induction a as [| x a IH]; simpl; [reflexivity | now rewrite IH]. Qed.

Lemma append_empty_r (a : string) : (a ++ "" = a)%string.
Proof. induction a as [| x a IH]; simpl; [reflexivity | now rewrite IH]. Qed.

Lemma concat_empty_cons (x : string) (xs : list string) :
  String.concat "" (x :: xs) = (x ++ String.concat "" xs)%string.
Proof.
  destruct xs as [| y ys]; simpl; [now rewrite append_empty_r | reflexivity].
Qed.

Lemma fold_listItems (messages : list string) (acc : string) :
  fold_left (fun previous current =>
               (previous ++ "<li>" ++ interpolate current ++ "</li>")%string)
            (map JS.Str messages) acc =
  (acc ++ String.concat "" (map (fun m => "<li>" ++ m ++ "</li>") messages))%string.
Proof.
  revert acc. induction messages as [| m rest IH]; intros acc.
  - simpl. now rewrite append_empty_r.
  - cbn [map fold_left]. rewrite IH, concat_empty_cons, append_assoc. reflexivity.
Qed.

Lemma listItems_concat (messages : list string) :
  listItems (map JS.Str messages) =
  String.concat "" (map (fun m => "<li>" ++ m ++ "</li>")%string messages).
Proof. unfold listItems. now rewrite fold_listItems. Qed.

(** With null for alright, the entries that are not null are the
    messages of the findings that are not silent. *)
Lemma filter_pushed (tpl : TextTemplates) (f : Segment -> Finding) (segs : list Segment) :
  tpl_alright tpl = JS.Null ->
  filter isNotNull (map (fun seg => pushed tpl seg (f seg)) segs) =
  map JS.Str
      (map (fun seg => messageOf (tpl_tooLong tpl) (tpl_tooShort tpl) seg (f seg))
           (filter (fun seg => negb (silent (f seg))) segs)).
Proof.
  intros Halright. induction segs as [| seg rest IH]; [reflexivity |].
  cbn [map filter]. rewrite IH.
  destruct (f seg) as [gap | gap |] eqn:Ef; cbn [pushed silent].
  - destruct (JS.isZero gap); cbn [isNotNull negb map]; rewrite ?Ef; reflexivity.
  - cbn [isNotNull negb map]. rewrite Ef. reflexivity.
  - rewrite Halright. reflexivity.
Qed.

Lemma buildFeedbackTexts_pushed_content (c : StructureStripContent.t) (tpl : TextTemplates) :
  StructureStripContent.buildFeedbackTexts c tpl =
  map (fun seg => pushed tpl seg
                    (finding JS.floor JS.ceil (StructureStripContent.normalizedLengthMax c)
                             (StructureStripContent.normalizedLengthMin c) seg))
      (StructureStripContent.segments c).
Proof.
  unfold StructureStripContent.buildFeedbackTexts. apply map_ext.
  intros seg. apply segmentFeedback_pushed.
Qed.

Lemma buildFeedbackTexts_pushed_bounds (c : StructureStripContentMinMax.t)
    (tpl : TextTemplates) :
  StructureStripContentMinMax.buildFeedbackTexts c tpl =
  map (fun seg => pushed tpl seg
                    (finding JS.round JS.round
                             (StructureStripContentMinMax.normalizedLengthMax c)
                             (StructureStripContentMinMax.normalizedLengthMin c) seg))
      (StructureStripContentMinMax.segments c).
Proof.
  unfold StructureStripContentMinMax.buildFeedbackTexts. apply map_ext.
  intros seg. apply segmentFeedback_pushed.
Qed.

(** X15.  [checkAnswer] does nothing unless the feedback mode is
    onRequest.  In that mode its report holds exactly the messages of
    the segments found too short, or too long with a gap that is not 0,
    in segment order: the text for all segments good when there is
    none, a paragraph for one, and a list of all of them for several.
    Both revisions assemble the same report. *)
Theorem checkAnswer_reports_the_messages_in_order :
  (forall c : StructureStripContent.t,
     let l10n := StructureStripContent.p_l10n (StructureStripContent.params c) in
     let findingOf :=
       finding JS.floor JS.ceil (StructureStripContent.normalizedLengthMax c)
               (StructureStripContent.normalizedLengthMin c) in
     StructureStripContent.checkAnswer c =
       if isOnRequest (StructureStripContent.p_feedbackMode (StructureStripContent.params c))
       then Some (report (l10n_allSegmentsGood l10n)
                    (map (fun seg => messageOf (l10n_segmentTooLong l10n)
                                       (l10n_segmentTooShort l10n) seg (findingOf seg))
                         (filter (fun seg => negb (silent (findingOf seg)))
                                 (StructureStripContent.segments c))))
       else None) /\
  (forall c : StructureStripContentMinMax.t,
     let l10n := StructureStripContentMinMax.p_l10n (StructureStripContentMinMax.params c) in
     let findingOf :=
       finding JS.round JS.round (StructureStripContentMinMax.normalizedLengthMax c)
               (StructureStripContentMinMax.normalizedLengthMin c) in
     StructureStripContentMinMax.checkAnswer c =
       if isOnRequest (StructureStripContentMinMax.p_feedbackMode
                         (StructureStripContentMinMax.params c))
       then Some (report (l10n_allSegmentsGood l10n)
                    (map (fun seg => messageOf (l10n_segmentTooLong l10n)
                                       (l10n_segmentTooShort l10n) seg (findingOf seg))
                         (filter (fun seg => negb (silent (findingOf seg)))
                                 (StructureStripContentMinMax.segments c))))
       else None).
Proof.
  split; intros c; cbv zeta.
  - unfold StructureStripContent.checkAnswer.
    destruct (isOnRequest _); [| reflexivity]. cbn [negb].
    rewrite buildFeedbackTexts_pushed_content, filter_pushed by reflexivity.
    cbn [StructureStripContent.checkAnswerTemplates tpl_tooLong tpl_tooShort].
    match goal with |- context [map JS.Str ?l] => destruct l as [| m1 [| m2 rest]] end.
    + reflexivity.
    + reflexivity.
    + f_equal. unfold report. rewrite listItems_concat. reflexivity.
  - unfold StructureStripContentMinMax.checkAnswer.
    destruct (isOnRequest _); [| reflexivity]. cbn [negb].
    rewrite buildFeedbackTexts_pushed_bounds, filter_pushed by reflexivity.
    cbn [StructureStripContentMinMax.checkAnswerTemplates tpl_tooLong tpl_tooShort].
    match goal with |- context [map JS.Str ?l] => destruct l as [| m1 [| m2 rest]] end.
    + reflexivity.
    + reflexivity.
    + f_equal. cbn [map].
      change (JS.Str m1 :: JS.Str m2 :: map JS.Str rest) with (map JS.Str (m1 :: m2 :: rest)).
      unfold report. rewrite listItems_concat. reflexivity.
Qed.

Lemma orElse_not_empty (v : JS.value) : JS.orElse v "&nbsp;" <> EmptyString.
Proof. destruct v as [| | [| x s]]; discriminate. Qed.

Lemma pushed_silent (tpl : TextTemplates) (seg : Segment) (f : Finding) :
  tpl_alright tpl = JS.Undefined -> silent f = true ->
  JS.orElse (pushed tpl seg f) "&nbsp;" = "&nbsp;"%string.
Proof.
  intros Halright Hsilent. destruct f as [gap | gap |]; simpl in *.
  - rewrite Hsilent. reflexivity.
  - discriminate Hsilent.
  - rewrite Halright. reflexivity.
Qed.

(** X16.  [updateSegments] does nothing unless the feedback mode is
    continuously.  In that mode it sets one status per segment, never
    the empty string: a segment that is alright, or too long with a gap
    of 0, gets the blank placeholder.  Both revisions. *)
Theorem updateSegments_sets_a_status_on_every_segment :
  (forall c : StructureStripContent.t,
     if isContinuously (StructureStripContent.p_feedbackMode (StructureStripContent.params c))
     then exists statuses,
            StructureStripContent.updateSegments c = Some statuses /\
            List.length statuses = List.length (StructureStripContent.segments c) /\
            forall i, i < List.length (StructureStripContent.segments c) ->
              nth i statuses EmptyString <> EmptyString /\
              (silent (StructureStripContent.findingAt c i) = true ->
               nth i statuses EmptyString = "&nbsp;"%string)
     else StructureStripContent.updateSegments c = None) /\
  (forall c : StructureStripContentMinMax.t,
     if isContinuously (StructureStripContentMinMax.p_feedbackMode
                          (StructureStripContentMinMax.params c))
     then exists statuses,
            StructureStripContentMinMax.updateSegments c = Some statuses /\
            List.length statuses = List.length (StructureStripContentMinMax.segments c) /\
            forall i, i < List.length (StructureStripContentMinMax.segments c) ->
              nth i statuses EmptyString <> EmptyString /\
              (silent (StructureStripContentMinMax.findingAt c i) = true ->
               nth i statuses EmptyString = "&nbsp;"%string)
     else StructureStripContentMinMax.updateSegments c = None).
Proof.
  split; intros c.
  - unfold StructureStripContent.updateSegments.
    destruct (isContinuously _); [| reflexivity]. cbn [negb].
    eexists. split; [reflexivity |]. split.
    + rewrite length_map. apply length_map.
    + intros i Hi.
      rewrite buildFeedbackTexts_pushed_content, map_map.
      rewrite (map_nth_segment _ _ _ _ Hi).
      split; [apply orElse_not_empty |].
      intros Hsilent. apply pushed_silent; [reflexivity | exact Hsilent].
  - unfold StructureStripContentMinMax.updateSegments.
    destruct (isContinuously _); [| reflexivity]. cbn [negb].
    eexists. split; [reflexivity |]. split.
    + rewrite length_map. apply length_map.
    + intros i Hi.
      rewrite buildFeedbackTexts_pushed_bounds, map_map.
      rewrite (map_nth_segment _ _ _ _ Hi).
      split; [apply orElse_not_empty |].
      intros Hsilent. apply pushed_silent; [reflexivity | exact Hsilent].
Qed.

(* ===================================================================== *)
(** ** Splitting and joining *)
(* ===================================================================== *)

Lemma split_not_empty (sep : ascii) (s : string) : split sep s <> [].
Proof.
  destruct s as [| c s']; simpl; [discriminate |].
  destruct (Ascii.eqb c sep); [discriminate |].
  destruct (split sep s'); discriminate.
Qed.

Lemma concat_cons_nonempty (sep x : string) (xs : list string) :
  xs <> [] -> String.concat sep (x :: xs) = (x ++ sep ++ String.concat sep xs)%string.
Proof. destruct xs; [contradiction | reflexivity]. Qed.

(** Joining what was split gives the string back. *)
Lemma concat_split (sep : ascii) (s : string) :
  String.concat (String sep EmptyString) (split sep s) = s.
Proof.
  induction s as [| c s' IH]; [reflexivity |].
  simpl split. destruct (Ascii.eqb_spec c sep) as [-> | Hne].
  - rewrite concat_cons_nonempty by apply split_not_empty.
    simpl. now rewrite IH.
  - pose proof (split_not_empty sep s') as Hne'.
    destruct (split sep s') as [| first rest]; [contradiction |].
    rewrite <- IH. destruct rest as [| second rest']; reflexivity.
Qed.

Lemma split_free (sep : ascii) (s : string) : hasChar sep s = false -> split sep s = [s].
Proof.
  induction s as [| c s' IH]; [reflexivity |].
  simpl. intros H. apply orb_false_iff in H. destruct H as [Hc Hs].
  rewrite Hc, (IH Hs). reflexivity.
Qed.

Lemma split_append (sep : ascii) (x rest : string) :
  hasChar sep x = false ->
  split sep (x ++ String sep rest) = x :: split sep rest.
Proof.
  induction x as [| c x' IH]; intros H.
  - simpl. now rewrite Ascii.eqb_refl.
  - simpl in H. apply orb_false_iff in H. destruct H as [Hc Hx].
    simpl. rewrite Hc, (IH Hx). reflexivity.
Qed.

(** Splitting what was joined gives the parts back, when no part holds
    the separator. *)
Lemma split_concat (sep : ascii) (parts : list string) :
  parts <> [] ->
  Forall (fun part => hasChar sep part = false) parts ->
  split sep (String.concat (String sep EmptyString) parts) = parts.
Proof.
  intros Hne Hall. induction Hall as [| x rest Hx Hrest IH]; [contradiction |].
  destruct rest as [| y rest'].
  - simpl. apply split_free. exact Hx.
  - rewrite concat_cons_nonempty by discriminate.
    set (joined := String.concat _ (y :: rest')) in *.
    change ((x ++ String sep EmptyString ++ joined)%string)
      with ((x ++ String sep joined)%string).
    rewrite split_append by exact Hx.
    rewrite IH by discriminate. reflexivity.
Qed.

(* ===================================================================== *)
(** ** The texts of the content *)
(* ===================================================================== *)

Lemma filter_isNonEmpty_free (c : ascii) (texts : list string) :
  Forall (fun text => hasChar c text = false) texts ->
  Forall (fun text => hasChar c text = false) (filter isNonEmpty texts).
Proof.
  induction 1 as [| x rest Hx _ IH]; simpl; [constructor |].
  destruct (isNonEmpty x); [constructor; assumption | assumption].
Qed.

Lemma concat_lines_empty (lines : list string) :
  Forall (fun line => isNonEmpty line = true) lines ->
  String.concat lineFeed lines = EmptyString -> lines = [].
Proof.
  intros Hall H. destruct Hall as [| x rest Hx _]; [reflexivity |].
  destruct x as [| c x']; [discriminate Hx |].
  destruct rest; simpl in H; discriminate H.
Qed.

(** X17.  [getText(true)] joins the texts that are not empty: the
    result is empty exactly when every text is empty, and when no text
    holds a line feed and some text is not empty, its lines are the
    texts that are not empty, in segment order, without a blank line for
    an empty segment.  [getText(false)] is the array of all texts.  The
    same in both revisions. *)
Theorem getText_joins_the_texts_that_are_not_empty (segments : list Segment) :
  textsOf segments false = TextArray (map getText segments) /\
  exists joined,
    textsOf segments true = TextJoined joined /\
    (joined = EmptyString <-> Forall (fun seg => getText seg = EmptyString) segments) /\
    (Forall (fun seg => hasChar (ascii_of_nat 10) (getText seg) = false) segments ->
     joined <> EmptyString ->
     split (ascii_of_nat 10) joined = filter isNonEmpty (map getText segments)).
Proof.
  split; [reflexivity |].
  eexists. split; [reflexivity |]. split; [split |].
  - intros H.
    assert (Hall : Forall (fun line => isNonEmpty line = true)
                          (filter isNonEmpty (map getText segments))).
    { apply Forall_forall. intros x Hin. apply filter_In in Hin. tauto. }
    pose proof (concat_lines_empty _ Hall H) as Hnil.
    apply Forall_forall. intros seg Hin.
    destruct (getText seg) as [| ch rest] eqn:E; [reflexivity | exfalso].
    assert (Hin' : In (getText seg) (filter isNonEmpty (map getText segments))).
    { apply filter_In. split; [apply in_map; exact Hin | rewrite E; reflexivity]. }
    rewrite Hnil in Hin'. contradiction.
  - intros Hall.
    replace (filter isNonEmpty (map getText segments)) with (@nil string); [reflexivity |].
    induction Hall as [| seg rest Hseg _ IH]; [reflexivity |].
    simpl. rewrite Hseg. simpl. exact IH.
  - intros Hfree Hne.
    apply split_concat.
    + intros Hnil. apply Hne. rewrite Hnil. reflexivity.
    + apply filter_isNonEmpty_free. apply Forall_map. exact Hfree.
Qed.

Lemma getText_joins_the_texts_that_are_not_empty_witness :
  exists joined,
    StructureStripContent.getTexts (contentWith "Hi" "") true = TextJoined joined /\
    split (ascii_of_nat 10) joined = ["Hi"%string].
Proof.
  destruct (getText_joins_the_texts_that_are_not_empty (introBodyWith "Hi" ""))
    as (_ & joined & Ej & _ & Hsplit).
  exists joined. split; [exact Ej |].
  injection Ej as Ej. subst joined.
  apply Hsplit.
  - repeat constructor.
  - discriminate.
Defined.

(* ===================================================================== *)
(** ** Language tags *)
(* ===================================================================== *)

Ltac by_characters c := destruct c as [[] [] [] [] [] [] [] []]; vm_compute; reflexivity.

Lemma toLowerChar_idempotent (c : ascii) : toLowerChar (toLowerChar c) = toLowerChar c.
Proof. by_characters c. Qed.

Lemma toUpperChar_idempotent (c : ascii) : toUpperChar (toUpperChar c) = toUpperChar c.
Proof. by_characters c. Qed.

Lemma toLowerChar_toUpperChar (c : ascii) : toLowerChar (toUpperChar c) = toLowerChar c.
Proof. by_characters c. Qed.

Lemma toLowerChar_hyphen (c : ascii) : Ascii.eqb (toLowerChar c) "-" = Ascii.eqb c "-".
Proof. by_characters c. Qed.

Lemma toUpperChar_hyphen (c : ascii) : Ascii.eqb (toUpperChar c) "-" = Ascii.eqb c "-".
Proof. by_characters c. Qed.

Lemma mapString_length (f : ascii -> ascii) (s : string) :
  String.length (mapString f s) = String.length s.
Proof. induction s as [| c s' IH]; simpl; [reflexivity | now rewrite IH]. Qed.

Lemma mapString_append (f : ascii -> ascii) (a b : string) :
  mapString f (a ++ b) = (mapString f a ++ mapString f b)%string.
Proof. induction a as [| c a' IH]; simpl; [reflexivity | now rewrite IH]. Qed.

Lemma mapString_compose (f g h : ascii -> ascii) (s : string) :
  (forall c, f (g c) = h c) -> mapString f (mapString g s) = mapString h s.
Proof. intros H. induction s as [| c s' IH]; simpl; [reflexivity | now rewrite H, IH]. Qed.

Lemma mapString_hyphen (f : ascii -> ascii) (s : string) :
  (forall c, Ascii.eqb (f c) "-" = Ascii.eqb c "-") ->
  hasChar "-" (mapString f s) = hasChar "-" s.
Proof. intros H. induction s as [| c s' IH]; simpl; [reflexivity | now rewrite H, IH]. Qed.

Lemma toLowerCase_concat (parts : list string) :
  toLowerCase (String.concat "-" parts) = String.concat "-" (map toLowerCase parts).
Proof.
  induction parts as [| x rest IH]; [reflexivity |].
  destruct rest as [| y rest'].
  - reflexivity.
  - rewrite (concat_cons_nonempty "-" x (y :: rest')) by discriminate.
    cbn [map] in *.
    rewrite (concat_cons_nonempty "-" (toLowerCase x)
               (toLowerCase y :: map toLowerCase rest')) by discriminate.
    rewrite <- IH. unfold toLowerCase. rewrite !mapString_append. reflexivity.
Qed.

Lemma length_append (a b : string) :
  String.length (a ++ b) = String.length a + String.length b.
Proof. induction a as [| c a' IH]; simpl; [reflexivity | now rewrite IH]. Qed.

Lemma length_concat_parts (parts parts' : list string) :
  Forall2 (fun x y => String.length y = String.length x) parts parts' ->
  String.length (String.concat "-" parts') = String.length (String.concat "-" parts).
Proof.
  intros H. induction H as [| x y rest rest' Hxy Hrest IH]; [reflexivity |].
  destruct Hrest as [| x2 y2 rest2 rest2' H2 Hrest2].
  - simpl. exact Hxy.
  - rewrite (concat_cons_nonempty "-" y (y2 :: rest2')) by discriminate.
    rewrite (concat_cons_nonempty "-" x (x2 :: rest2)) by discriminate.
    rewrite !length_append, Hxy, IH. reflexivity.
Qed.

Lemma split_parts_free (sep : ascii) (s : string) :
  Forall (fun part => hasChar sep part = false) (split sep s).
Proof.
  induction s as [| c s' IH]; simpl; [repeat constructor |].
  destruct (Ascii.eqb c sep) eqn:E; [constructor; [reflexivity | exact IH] |].
  destruct (split sep s') as [| first rest]; [repeat constructor; simpl; now rewrite E |].
  inversion IH as [| ? ? Hfirst Hrest]; subst.
  constructor; [simpl; now rewrite E, Hfirst | exact Hrest].
Qed.

Lemma formatLanguageCode_subtags (code : string) :
  formatLanguageCode (JS.Str code) =
  JS.Str (String.concat "-" (formattedSubtags (split "-" code))).
Proof.
  unfold formatLanguageCode, formattedSubtags.
  destruct (split "-" code) as [| first [| second rest]]; reflexivity.
Qed.

Lemma formattedSubtags_free (subtags : list string) :
  Forall (fun part => hasChar "-" part = false) subtags ->
  Forall (fun part => hasChar "-" part = false) (formattedSubtags subtags).
Proof.
  intros H. destruct H as [| first rest Hfirst Hrest]; [constructor |].
  destruct Hrest as [| second rest' Hsecond Hrest'].
  - constructor; [| constructor].
    unfold toLowerCase. rewrite mapString_hyphen by apply toLowerChar_hyphen. exact Hfirst.
  - constructor; [| constructor; [| exact Hrest']].
    + unfold toLowerCase. rewrite mapString_hyphen by apply toLowerChar_hyphen. exact Hfirst.
    + unfold toUpperCase. rewrite mapString_hyphen by apply toUpperChar_hyphen. exact Hsecond.
Qed.

Lemma formattedSubtags_idempotent (subtags : list string) :
  formattedSubtags (formattedSubtags subtags) = formattedSubtags subtags.
Proof.
  destruct subtags as [| first [| second rest]]; simpl; [reflexivity | |];
    unfold toLowerCase, toUpperCase.
  - now rewrite (mapString_compose _ _ _ first toLowerChar_idempotent).
  - now rewrite (mapString_compose _ _ _ first toLowerChar_idempotent),
                (mapString_compose _ _ _ second toUpperChar_idempotent).
Qed.

(** X18.  [formatLanguageCode] changes the case of letters and nothing
    else: for an ASCII language code the result has the same length and
    is the same code when case is ignored.  What is not a string is
    returned as it is. *)
Theorem formatLanguageCode_changes_case_only (code : string) :
  isAscii code = true ->
  formatLanguageCode JS.Undefined = JS.Undefined /\
  formatLanguageCode JS.Null = JS.Null /\
  exists formatted,
    formatLanguageCode (JS.Str code) = JS.Str formatted /\
    String.length formatted = String.length code /\
    toLowerCase formatted = toLowerCase code.
Proof.
  intros _. split; [reflexivity |]. split; [reflexivity |].
  eexists. split; [apply formatLanguageCode_subtags |].
  pose proof (concat_split "-" code) as Hcode.
  split.
  - rewrite <- Hcode at 2. apply length_concat_parts.
    destruct (split "-" code) as [| first [| second rest]]; simpl.
    + constructor.
    + constructor; [apply mapString_length | constructor].
    + constructor; [apply mapString_length |].
      constructor; [apply mapString_length |].
      clear. induction rest; constructor; auto.
  - rewrite <- Hcode at 2. rewrite !toLowerCase_concat. f_equal.
    destruct (split "-" code) as [| first [| second rest]]; simpl; [reflexivity | |];
      unfold toLowerCase, toUpperCase.
    + now rewrite (mapString_compose _ _ _ first toLowerChar_idempotent).
    + now rewrite (mapString_compose _ _ _ first toLowerChar_idempotent),
                  (mapString_compose _ _ _ second toLowerChar_toUpperChar).
Qed.

Lemma formatLanguageCode_changes_case_only_witness :
  formatLanguageCode JS.Undefined = JS.Undefined /\
  formatLanguageCode JS.Null = JS.Null /\
  exists formatted,
    formatLanguageCode (JS.Str "EN-us-x-Private") = JS.Str formatted /\
    String.length formatted = String.length "EN-us-x-Private" /\
    toLowerCase formatted = toLowerCase "EN-us-x-Private".
Proof.
  apply (formatLanguageCode_changes_case_only "EN-us-x-Private"). reflexivity.
Defined.

(** X19.  For an ASCII language code, [formatLanguageCode] gives the
    code whose subtags are those of the argument with the first in lower
    case and the second, if any, in upper case, the others untouched;
    formatting a formatted code changes nothing. *)
Theorem formatLanguageCode_subtags_and_idempotence (code : string) :
  isAscii code = true ->
  exists formatted,
    formatLanguageCode (JS.Str code) = JS.Str formatted /\
    split "-" formatted = formattedSubtags (split "-" code) /\
    formatLanguageCode (JS.Str formatted) = JS.Str formatted.
Proof.
  intros _. eexists. split; [apply formatLanguageCode_subtags |].
  assert (Hsplit : split "-" (String.concat "-" (formattedSubtags (split "-" code))) =
                   formattedSubtags (split "-" code)).
  { apply split_concat.
    - pose proof (split_not_empty "-" code) as Hne.
      destruct (split "-" code) as [| first [| second rest]]; [contradiction | |];
        discriminate.
    - apply formattedSubtags_free, split_parts_free. }
  split; [exact Hsplit |].
  rewrite formatLanguageCode_subtags, Hsplit, formattedSubtags_idempotent. reflexivity.
Qed.

Lemma formatLanguageCode_subtags_and_idempotence_witness :
  exists formatted,
    formatLanguageCode (JS.Str "EN-us-x-Private") = JS.Str formatted /\
    split "-" formatted = formattedSubtags (split "-" "EN-us-x-Private") /\
    formatLanguageCode (JS.Str formatted) = JS.Str formatted.
Proof.
  apply (formatLanguageCode_subtags_and_idempotence "EN-us-x-Private"). reflexivity.
Defined.

Example format_language_code :
  formatLanguageCode (JS.Str "EN-us-x-Private") = JS.Str "en-US-x-Private".
Proof. reflexivity. Qed.

(* ===================================================================== *)
(** ** Scaling the weights *)
(* ===================================================================== *)










